(** * WFC3/UVIS pixel-area-map correction of subarray images

    A shallow embedding of [make_PAMcorr_image_UVIS] and of the notebook
    cell that computes the subarray corners, from
    [notebooks/uvis_pam_corrections/WFC3_UVIS_Pixel_Area_Map_Corrections_for_Subarrays.ipynb].

    Python objects are modelled as follows.
    - A header is a finite map from keyword to value; a value is a Python
      [int], [float] (binary64), [str] or [bool].
    - An array is a two-dimensional [float64] array: its shape and its rows.
      Cells are primitive binary64 numbers, so products round as they do in
      the code on [float64] operands; all NaNs are one value.  The code
      converts no array, so that on [float32] operands it rounds to
      [float32]; such arrays are not modelled.
    - Arrays live in a heap of references; FITS files live on a disk that
      maps a path to the image array [fits.getdata] returns for it.
    - A Python exception is a value of [pyerr]; code runs in a state and
      exception monad over the heap and the disk.

    The first part holds the definitions, the second the proofs. *)

From Stdlib Require Import ZArith QArith Qabs Floats Ascii Lia.
From stdpp Require Import gmap strings list.

Local Open Scope Z_scope.

(** ** Exceptions and results *)

Inductive pyerr : Type :=
| KeyError (key : string)
| TypeError
| ValueError (msg : string)
| OverflowError
| FileNotFoundError (path : string)
| Exception (msg : string).

Inductive res (A : Type) : Type :=
| Ok (a : A)
| Err (e : pyerr).
Arguments Ok {A} a.
Arguments Err {A} e.

Definition res_bind {A B : Type} (r : res A) (k : A -> res B) : res B :=
  match r with
  | Ok a => k a
  | Err e => Err e
  end.

(** ** Header values and the scalar operations applied to them *)

Inductive hval : Type :=
| HInt (z : Z)
| HFloat (f : float)
| HStr (s : string)
| HBool (b : bool).

(** What arithmetic on header values yields: an integer, a binary64 or a
    boolean scalar. *)
Inductive num : Type :=
| NInt (z : Z)
| NFloat (f : float)
| NBool (b : bool).

Abbreviation header := (gmap string hval).

(** [scihdr[key]] *)
Definition getitem (scihdr : header) (key : string) : res hval :=
  match scihdr !! key with
  | Some v => Ok v
  | None => Err (KeyError key)
  end.

Definition int64_min : Z := - 2 ^ 63.

(** [np.abs(v)]. An [int] becomes a 64-bit integer scalar when it fits (the
    default integer of a 64-bit platform), and the absolute value of the
    least 64-bit integer wraps around to itself; outside that range the
    value is kept as a Python integer. *)
Definition np_abs (v : hval) : res num :=
  match v with
  | HInt z => Ok (NInt (if z =? int64_min then z else Z.abs z))
  | HFloat f => Ok (NFloat (PrimFloat.abs f))
  | HBool b => Ok (NBool b)
  | HStr _ => Err TypeError
  end.

(** [int(f)] for a binary64 [f]: truncation toward zero. *)
Definition float_to_int (f : float) : res Z :=
  match Prim2SF f with
  | S754_zero _ => Ok 0
  | S754_infinity _ => Err OverflowError
  | S754_nan => Err (ValueError "cannot convert float NaN to integer")
  | S754_finite s m e =>
      let a := Z.shiftl (Z.pos m) e in
      Ok (if s then - a else a)
  end.

(** [int(x)] *)
Definition py_int (x : num) : res Z :=
  match x with
  | NInt z => Ok z
  | NFloat f => float_to_int f
  | NBool b => Ok (if b then 1 else 0)
  end.

(** [float(z)] for a Python integer [z]: the nearest binary64, ties to
    even; too large an integer raises. *)
Definition int_to_float (z : Z) : res float :=
  let f := SF2Prim (binary_normalize prec emax z 0 false) in
  if PrimFloat.is_infinity f then Err OverflowError else Ok f.

(** [z + v] for a Python integer [z] *)
Definition py_add (z : Z) (v : hval) : res num :=
  match v with
  | HInt n => Ok (NInt (z + n))
  | HBool b => Ok (NInt (z + if b then 1 else 0))
  | HFloat f => res_bind (int_to_float z) (fun zf => Ok (NFloat (zf + f)%float))
  | HStr _ => Err TypeError
  end.

(** [v == n] for an integer literal [n]; Python compares a float with an
    integer by value, without rounding either. *)
Definition py_eq (v : hval) (n : Z) : bool :=
  match v with
  | HInt z => z =? n
  | HFloat f =>
      match Prim2SF f with
      | S754_zero _ => n =? 0
      | S754_finite s m e =>
          let sm := if s then Z.neg m else Z.pos m in
          if 0 <=? e then sm * 2 ^ e =? n else sm =? n * 2 ^ (- e)
      | _ => false
      end
  | HBool b => (if b then 1 else 0) =? n
  | HStr _ => false
  end.

(** ** The subarray corners (notebook cell, and the first four statements
    of the function)

    x0 = int(np.abs(scihdr['LTV1']))
    y0 = int(np.abs(scihdr['LTV2']))
    x1 = int(x0 + scihdr['NAXIS1'])
    y1 = int(y0 + scihdr['NAXIS2']) *)

Record corners : Type := Corners { x0 : Z; y0 : Z; x1 : Z; y1 : Z }.

Definition int_abs_of (scihdr : header) (key : string) : res Z :=
  res_bind (getitem scihdr key) (fun v =>
  res_bind (np_abs v) py_int).

Definition int_sum_of (z : Z) (scihdr : header) (key : string) : res Z :=
  res_bind (getitem scihdr key) (fun v =>
  res_bind (py_add z v) py_int).

Definition subarray_corners (scihdr : header) : res corners :=
  res_bind (int_abs_of scihdr "LTV1") (fun x0 =>
  res_bind (int_abs_of scihdr "LTV2") (fun y0 =>
  res_bind (int_sum_of x0 scihdr "NAXIS1") (fun x1 =>
  res_bind (int_sum_of y0 scihdr "NAXIS2") (fun y1 =>
  Ok (Corners x0 y0 x1 y1))))).

Local Close Scope Z_scope.

(** ** Arrays

    A two-dimensional binary64 array ([dtype] float64): its shape and its
    rows.  The shape is kept apart from the rows because an array may have
    no row and still a number of columns, which broadcasting looks at. *)

Record ndarray : Type := NdArray {
  nrows : nat;
  ncols : nat;
  rows : list (list float)
}.

Definition wf_ndarray (a : ndarray) : Prop :=
  length (rows a) = nrows a ∧ Forall (λ r, length r = ncols a) (rows a).

(** [a[r, c]] for indices within the array *)
Definition cell (a : ndarray) (r c : nat) : option float :=
  rows a !! r ≫= (.!! c).

(** The bound of a slice with no step, along an axis of length [len]: a
    negative bound counts from the end, and every bound is clipped to the
    axis. *)
Definition slice_index (len : nat) (i : Z) : nat :=
  Z.to_nat (if i <? 0 then Z.max 0 (i + Z.of_nat len) else Z.min i (Z.of_nat len))%Z.

Definition sub_list {A : Type} (lo hi : nat) (l : list A) : list A :=
  take (hi - lo) (drop lo l).

(** The part of an array a basic slice selects, after its bounds have been
    resolved against the shape. *)
Record window : Type := Window {
  row_lo : nat; row_hi : nat;
  col_lo : nat; col_hi : nat
}.

(** The window of [a[y0:y1, x0:x1]] *)
Definition window_of (a : ndarray) (y0 y1 x0 x1 : Z) : window :=
  Window (slice_index (nrows a) y0) (slice_index (nrows a) y1)
         (slice_index (ncols a) x0) (slice_index (ncols a) x1).

Definition window_array (a : ndarray) (w : window) : ndarray :=
  NdArray (row_hi w - row_lo w) (col_hi w - col_lo w)
          (sub_list (col_lo w) (col_hi w)
             <$> sub_list (row_lo w) (row_hi w) (rows a)).

(** Broadcasting of one axis: equal lengths, or one of them is 1. *)
Definition bcast_dim (m n : nat) : option nat :=
  if decide (m = n) then Some m
  else if decide (m = 1) then Some n
  else if decide (n = 1) then Some m
  else None.

(** An axis of length 1 is repeated to the broadcast length. *)
Definition stretch {A : Type} (n : nat) (l : list A) : list A :=
  match l with
  | [x] => replicate n x
  | _ => l
  end.

Definition bcast_rows (h w : nat) (a : ndarray) : list (list float) :=
  stretch h (stretch w <$> rows a).

(** [a * b] on arrays *)
Definition multiply (a b : ndarray) : res ndarray :=
  match bcast_dim (nrows a) (nrows b), bcast_dim (ncols a) (ncols b) with
  | Some h, Some w =>
      Ok (NdArray h w (zip_with (zip_with PrimFloat.mul)
                                (bcast_rows h w a) (bcast_rows h w b)))
  | _, _ => Err (ValueError "operands could not be broadcast together")
  end.

(** [k * a] for a scalar [k] *)
Definition scale (k : float) (a : ndarray) : ndarray :=
  NdArray (nrows a) (ncols a) ((λ r : list float, PrimFloat.mul k <$> r) <$> rows a).

(** ** The heap, the disk and the monad *)

Definition loc : Type := positive.

Record world : Type := World {
  heap : gmap loc ndarray;
  disk : gmap string ndarray
}.

(** An array expression denotes a whole array or a view of one; a view
    shares the cells of its base. *)
Inductive aref : Type :=
| Base (l : loc)
| View (l : loc) (w : window).

(** [Stuck] is the use of a reference that is not in the heap, which no
    Python program can do. *)
Inductive outcome (A : Type) : Type :=
| Done (a : A)
| Raised (e : pyerr)
| Stuck.
Arguments Done {A} a.
Arguments Raised {A} e.
Arguments Stuck {A}.

Definition M (A : Type) : Type := world -> outcome A * world.

#[export] Instance M_ret : MRet M := λ A a σ, (Done a, σ).

#[export] Instance M_bind : MBind M := λ A B k m σ,
  match m σ with
  | (Done a, σ') => k a σ'
  | (Raised e, σ') => (Raised e, σ')
  | (Stuck, σ') => (Stuck, σ')
  end.

Definition raise {A : Type} (e : pyerr) : M A := λ σ, (Raised e, σ).

Definition lift {A : Type} (r : res A) : M A :=
  match r with
  | Ok a => mret a
  | Err e => raise e
  end.

Definition load (l : loc) : M ndarray := λ σ,
  match heap σ !! l with
  | Some a => (Done a, σ)
  | None => (Stuck, σ)
  end.

Definition alloc (a : ndarray) : M loc := λ σ,
  let l := fresh (dom (heap σ)) in
  (Done l, World (<[l := a]> (heap σ)) (disk σ)).

Definition deref (r : aref) : M ndarray :=
  match r with
  | Base l => load l
  | View l w => a ← load l; mret (window_array a w)
  end.

(** [np.copy(data)] *)
Definition np_copy (data : loc) : M loc :=
  a ← load data; alloc a.

(** [fits.getdata(path)] *)
Definition fits_getdata (path : string) : M loc := λ σ,
  match disk σ !! path with
  | Some a => alloc a σ
  | None => (Raised (FileNotFoundError path), σ)
  end.

(** [pam[y0:y1, x0:x1]]: a view of [pam] *)
Definition np_slice (pam : loc) (y0 y1 x0 x1 : Z) : M aref :=
  a ← load pam; mret (View pam (window_of a y0 y1 x0 x1)).

(** [x * y]: a new array *)
Definition np_multiply (x y : aref) : M loc :=
  a ← deref x; b ← deref y; c ← lift (multiply a b); alloc c.

(** ** The function *)

Definition make_PAMcorr_image_UVIS (data : loc) (scihdr : header) (pamdir : string)
  : M loc :=
  data ← np_copy data;
  x0 ← lift (int_abs_of scihdr "LTV1");
  y0 ← lift (int_abs_of scihdr "LTV2");
  x1 ← lift (int_sum_of x0 scihdr "NAXIS1");
  y1 ← lift (int_sum_of y0 scihdr "NAXIS2");
  chip ← lift (getitem scihdr "CCDCHIP");
  if py_eq chip 1%Z then
    pam ← fits_getdata (pamdir +:+ "UVIS1wfc3_map.fits");
    region ← np_slice pam y0 y1 x0 x1;
    np_multiply (Base data) region
  else
    chip ← lift (getitem scihdr "CCDCHIP");
    if py_eq chip 2%Z then
      pam ← fits_getdata (pamdir +:+ "UVIS2wfc3_map.fits");
      region ← np_slice pam y0 y1 x0 x1;
      np_multiply (Base data) region
    else
      raise (Exception "Chip case not handled.").

(** The array a call returns, read from the heap it leaves. *)
Definition returned (r : outcome loc * world) : outcome ndarray :=
  match r with
  | (Done l, σ') => match heap σ' !! l with Some a => Done a | None => Stuck end
  | (Raised e, _) => Raised e
  | (Stuck, _) => Stuck
  end.

Definition correct (σ : world) (data : loc) (scihdr : header) (pamdir : string)
  : outcome ndarray :=
  returned (make_PAMcorr_image_UVIS data scihdr pamdir σ).

(** ** What a call computes, as a function of the values it reads *)

Definition pam_file (chip : hval) : res string :=
  if py_eq chip 1%Z then Ok "UVIS1wfc3_map.fits"
  else if py_eq chip 2%Z then Ok "UVIS2wfc3_map.fits"
  else Err (Exception "Chip case not handled.").

Definition read_file (files : gmap string ndarray) (path : string) : res ndarray :=
  match files !! path with
  | Some a => Ok a
  | None => Err (FileNotFoundError path)
  end.

(** [pam[y0:y1, x0:x1]] as an array *)
Definition region_of (pam : ndarray) (c : corners) : ndarray :=
  window_array pam (window_of pam (y0 c) (y1 c) (x0 c) (x1 c)).

Definition corrected (image : ndarray) (scihdr : header)
  (files : gmap string ndarray) (pamdir : string) : res ndarray :=
  res_bind (subarray_corners scihdr) (λ c,
  res_bind (getitem scihdr "CCDCHIP") (λ chip,
  res_bind (pam_file chip) (λ name,
  res_bind (read_file files (pamdir +:+ name)) (λ pam,
  multiply image (region_of pam c))))).

Definition of_res {A : Type} (r : res A) : outcome A :=
  match r with
  | Ok a => Done a
  | Err e => Raised e
  end.

Definition outcome_map {A B : Type} (f : A -> B) (o : outcome A) : outcome B :=
  match o with
  | Done a => Done (f a)
  | Raised e => Raised e
  | Stuck => Stuck
  end.

(** [computes m σ v]: run from [σ], [m] leaves the disk and every array of
    the heap as they were, and either raises the exception of [v] or
    returns a reference that was not in the heap of [σ] and now holds the
    array of [v]. *)
Definition computes (m : M loc) (σ : world) (v : res ndarray) : Prop :=
  ∃ r σ', m σ = (r, σ') ∧ disk σ' = disk σ ∧ heap σ ⊆ heap σ' ∧
    match r, v with
    | Done l, Ok a => heap σ !! l = None ∧ heap σ' !! l = Some a
    | Raised e, Err e' => e = e'
    | _, _ => False
    end.

Definition geometry_keys : list string :=
  ["LTV1"; "LTV2"; "NAXIS1"; "NAXIS2"; "CCDCHIP"].

(** The file the header selects, when it selects one. *)
Definition selected_path (scihdr : header) (pamdir : string) : option string :=
  match res_bind (getitem scihdr "CCDCHIP") pam_file with
  | Ok name => Some (pamdir +:+ name)
  | Err _ => None
  end.

(** ** Valid inputs

    The image is in the heap and is rectangular, the corners can be
    computed, NAXIS1 and NAXIS2 are the numbers of columns and rows of the
    image, CCDCHIP selects a file that is on the disk and holds a
    rectangular map, and the sub-rectangle lies within that map. *)
Record valid_input (σ : world) (data : loc) (scihdr : header) (pamdir : string)
  (image pam : ndarray) (c : corners) : Prop := ValidInput {
  vi_image : heap σ !! data = Some image;
  vi_image_wf : wf_ndarray image;
  vi_corners : subarray_corners scihdr = Ok c;
  vi_naxis1 : scihdr !! "NAXIS1" = Some (HInt (Z.of_nat (ncols image)));
  vi_naxis2 : scihdr !! "NAXIS2" = Some (HInt (Z.of_nat (nrows image)));
  vi_pam : ∃ p, selected_path scihdr pamdir = Some p ∧ disk σ !! p = Some pam;
  vi_pam_wf : wf_ndarray pam;
  vi_x : (0 ≤ x0 c ∧ x1 c ≤ Z.of_nat (ncols pam))%Z;
  vi_y : (0 ≤ y0 c ∧ y1 c ≤ Z.of_nat (nrows pam))%Z
}.

(** Two axis lengths that broadcasting rejects. *)
Definition mismatch (m n : nat) : Prop := m ≠ n ∧ m ≠ 1 ∧ n ≠ 1.

Definition broadcast_error : pyerr :=
  ValueError "operands could not be broadcast together".

(** Multiplication by [k] can be moved out of the product of [x] and [p]. *)
Definition associates (k x p : float) : Prop :=
  (k * x * p = k * (x * p))%float.

(** ** The origin as the specification words it

    The real number a keyword denotes, its absolute value, and truncation
    toward zero, over the rationals. *)

Definition float_value (f : float) : option Q :=
  match Prim2SF f with
  | S754_zero _ => Some 0%Q
  | S754_finite s m e =>
      let q := if (0 <=? e)%Z then inject_Z (Z.pos m * 2 ^ e)
               else Z.pos m # Z.to_pos (2 ^ (- e)) in
      Some (if s then Qopp q else q)
  | _ => None
  end.

Definition keyword_value (v : hval) : option Q :=
  match v with
  | HInt z => Some (inject_Z z)
  | HFloat f => float_value f
  | _ => None
  end.

Definition truncate (q : Q) : Z := Z.quot (Qnum q) (Z.pos (Qden q)).

Definition spec_origin (q : Q) : Z := truncate (Qabs q).

(** ** Concrete inputs *)

Definition hdr_demo : header :=
  <["LTV1" := HFloat (-1)%float]> (<["LTV2" := HFloat (-1)%float]>
  (<["NAXIS1" := HInt 2%Z]> (<["NAXIS2" := HInt 2%Z]> (<["CCDCHIP" := HInt 1%Z]> ∅)))).

Definition image_demo : ndarray :=
  NdArray 2 2 [[10; 20]; [30; 40]]%float.

Definition pam_demo : ndarray :=
  NdArray 4 4 (replicate 4 (replicate 4 2%float)).

Definition world_demo : world :=
  World {[ 1%positive := image_demo ]} {[ "UVIS1wfc3_map.fits" := pam_demo ]}.

Definition hdr_demo_int : header :=
  <["LTV1" := HInt (-1)%Z]> (<["LTV2" := HInt (-1)%Z]> hdr_demo).

Definition hdr_chip3 : header := <["CCDCHIP" := HInt 3%Z]> hdr_demo.

Definition image_other : ndarray := NdArray 2 2 [[1; 2]; [3; 4]]%float.

Definition world_two : world :=
  World (<[2%positive := image_other]> (heap world_demo)) (disk world_demo).

Definition hdr_extra : header := <["BUNIT" := HStr "ELECTRONS"]> hdr_demo.

(** A sub-rectangle wider than the map: one row of two pixels, a map of one
    cell. *)
Definition hdr_wide : header :=
  <["LTV1" := HFloat 0%float]> (<["LTV2" := HFloat 0%float]>
  (<["NAXIS1" := HInt 2%Z]> (<["NAXIS2" := HInt 1%Z]> (<["CCDCHIP" := HInt 1%Z]> ∅)))).

Definition image_wide : ndarray := NdArray 1 2 [[10; 20]]%float.

Definition pam_small : ndarray := NdArray 1 1 [[2]]%float.

Definition world_wide : world :=
  World {[ 1%positive := image_wide ]} {[ "UVIS1wfc3_map.fits" := pam_small ]}.

(** NAXIS1 = 1 declared for an image of two columns. *)
Definition hdr_narrow : header := <["NAXIS1" := HInt 1%Z]> hdr_demo.

(** One pixel 0.2 and its multiple by 0.1, a map of one cell 0.3: the
    binary64 values nearest to these decimals, which is what Python reads
    them as. *)
Definition f0_1 : float := 0x1.999999999999ap-4%float.
Definition f0_2 : float := 0x1.999999999999ap-3%float.
Definition f0_3 : float := 0x1.3333333333333p-2%float.

Definition hdr_one : header :=
  <["LTV1" := HFloat 0%float]> (<["LTV2" := HFloat 0%float]>
  (<["NAXIS1" := HInt 1%Z]> (<["NAXIS2" := HInt 1%Z]> (<["CCDCHIP" := HInt 1%Z]> ∅)))).

Definition image_one : ndarray := NdArray 1 1 [[f0_2]].

Definition pam_one : ndarray := NdArray 1 1 [[f0_3]].

Definition world_one : world :=
  World (<[2%positive := scale f0_1 image_one]> {[ 1%positive := image_one ]})
        {[ "UVIS1wfc3_map.fits" := pam_one ]}.

Definition world_scaled : world :=
  World (<[2%positive := scale 2 image_demo]> (heap world_demo)) (disk world_demo).

Definition pam_ones : ndarray :=
  NdArray 4 4 (replicate 4 (replicate 4 1%float)).

Definition world_ones : world :=
  World {[ 1%positive := image_demo ]} {[ "UVIS1wfc3_map.fits" := pam_ones ]}.

(** Offsets stored as a real number with a fraction and as an integer. *)
Definition hdr_real : header :=
  <["LTV1" := HFloat (-1537.75)%float]> (<["LTV2" := HInt (-25)%Z]> hdr_demo).

(** Another heap, another disk and one more keyword around the same image,
    geometry and chip-1 map. *)
Definition world_alt : world :=
  World {[ 5%positive := image_demo ]}
        (<["UVIS2wfc3_map.fits" := pam_ones]> (disk world_demo)).

(** An LTV1 that holds the least 64-bit integer, and a NAXIS1 that holds a
    real number with a fraction. *)
Definition hdr_least : header := <["LTV1" := HInt int64_min]> hdr_demo.

Definition hdr_fraction : header := <["NAXIS1" := HFloat 2.5%float]> hdr_demo.

(** The header of the demonstration on chip 2. *)
Definition hdr_chip2 : header := <["CCDCHIP" := HInt 2%Z]> hdr_demo.

(** ** The step-by-step cells of the notebook

    The corners cell is [subarray_corners]; the cell after it dispatches on
    the chip with the corners it left, on the image itself and on map files
    in the working directory:

    if scihdr_512['CCDCHIP'] == 1:
        pam = fits.getdata('UVIS1wfc3_map.fits')
        pamcorr_data_512 = data_512 * pam[y0:y1, x0:x1]
    elif scihdr_512['CCDCHIP'] == 2:
        pam = fits.getdata('UVIS2wfc3_map.fits')
        pamcorr_data_512 = data_512 * pam[y0:y1, x0:x1]
    else:
        raise Exception('Chip case not handled.') *)

Definition pam_cell (data : loc) (scihdr : header) (c : corners) : M loc :=
  chip ← lift (getitem scihdr "CCDCHIP");
  if py_eq chip 1%Z then
    pam ← fits_getdata "UVIS1wfc3_map.fits";
    region ← np_slice pam (y0 c) (y1 c) (x0 c) (x1 c);
    np_multiply (Base data) region
  else
    chip ← lift (getitem scihdr "CCDCHIP");
    if py_eq chip 2%Z then
      pam ← fits_getdata "UVIS2wfc3_map.fits";
      region ← np_slice pam (y0 c) (y1 c) (x0 c) (x1 c);
      np_multiply (Base data) region
    else
      raise (Exception "Chip case not handled.").

(** The two cells, one after the other. *)
Definition step_by_step (data : loc) (scihdr : header) : M loc :=
  c ← lift (subarray_corners scihdr);
  pam_cell data scihdr c.

(** ** The difference image

    pamcorr_data = make_PAMcorr_image_UVIS(data=data, scihdr=scihdr, pamdir=pamdir)
    diff_data = (pamcorr_data - data) *)

(** [a - b] on arrays, with the broadcasting of [multiply] *)
Definition subtract (a b : ndarray) : res ndarray :=
  match bcast_dim (nrows a) (nrows b), bcast_dim (ncols a) (ncols b) with
  | Some h, Some w =>
      Ok (NdArray h w (zip_with (zip_with PrimFloat.sub)
                                (bcast_rows h w a) (bcast_rows h w b)))
  | _, _ => Err (ValueError "operands could not be broadcast together")
  end.

Definition np_subtract (x y : aref) : M loc :=
  a ← deref x; b ← deref y; c ← lift (subtract a b); alloc c.

Definition diff_cell (data : loc) (scihdr : header) (pamdir : string) : M loc :=
  pamcorr_data ← make_PAMcorr_image_UVIS data scihdr pamdir;
  np_subtract (Base pamcorr_data) (Base data).

(** A pixel that is a number: neither a NaN nor an infinity. *)
Definition finite (x : float) : bool :=
  match Prim2SF x with
  | S754_zero _ | S754_finite _ _ _ => true
  | _ => false
  end.

(** The full frame of a map: origin 0 and the extent of the map. *)
Definition full_frame (pam : ndarray) : corners :=
  Corners 0 0 (Z.of_nat (ncols pam)) (Z.of_nat (nrows pam)).

(** A full-frame image on the 4x4 map, and the subarray of the scenario cut
    out of it. *)
Definition image_frame : ndarray :=
  NdArray 4 4 [[1; 2; 3; 4]; [5; 6; 7; 8]; [9; 10; 11; 12]; [13; 14; 15; 16]]%float.

Definition hdr_frame : header :=
  <["LTV1" := HFloat 0%float]> (<["LTV2" := HFloat 0%float]>
  (<["NAXIS1" := HInt 4%Z]> (<["NAXIS2" := HInt 4%Z]> (<["CCDCHIP" := HInt 1%Z]> ∅)))).

Definition world_frame : world :=
  World (<[2%positive := region_of image_frame (Corners 1 1 3 3)]>
           {[ 1%positive := image_frame ]})
        {[ "UVIS1wfc3_map.fits" := pam_demo ]}.

(** An image with a NaN pixel. *)
Definition image_nan : ndarray := NdArray 2 2 [[nan; 20]; [30; 40]]%float.

Definition world_nan : world :=
  World {[ 1%positive := image_nan ]} {[ "UVIS1wfc3_map.fits" := pam_demo ]}.

(** The maps stored in a directory, and nothing else on the disk. *)
Definition world_dir : world :=
  World {[ 1%positive := image_demo ]}
        (<["pam/UVIS1wfc3_map.fits" := pam_demo]>
           {[ "pam/UVIS2wfc3_map.fits" := pam_demo ]}).

(** A value the origin can be computed from: an integer, a boolean or a
    real that is a number. *)
Definition numeric (v : hval) : Prop :=
  match v with
  | HInt _ | HBool _ => True
  | HFloat f => finite f = true
  | HStr _ => False
  end.

(** ** Moving downloaded files to the working directory

    The second notebook downloads products and then tidies up:

    for file in download_table['Local Path']:
        filename = file.split('/')[-1]
        os.rename(file, os.path.basename(file))
        os.rmdir('mastDownload/HST/'+filename[:9])
    os.rmdir('mastDownload/HST/')
    os.rmdir('mastDownload/')

    Strings are Python [str]; the file system holds files and directories
    under the working directory, named by the components of their relative
    paths. *)

Module Os.

(** [s.split('/')] *)
Fixpoint split (s : string) : list string :=
  match s with
  | EmptyString => [EmptyString]
  | String a s' =>
      if decide (a = "/"%char) then EmptyString :: split s'
      else match split s' with
           | h :: t => String a h :: t
           | [] => [String a EmptyString]
           end
  end.

(** No "/" in [s] *)
Fixpoint slash_free (s : string) : bool :=
  match s with
  | EmptyString => true
  | String a s' => if decide (a = "/"%char) then false else slash_free s'
  end.

(** [l[-1]] for a list of strings that is not empty *)
Definition last_item (l : list string) : string := default EmptyString (last l).

(** [s.rfind('/')], scanning from index [i] with [found] the last index seen *)
Fixpoint rfind_from (s : string) (i found : Z) : Z :=
  match s with
  | EmptyString => found
  | String a s' => rfind_from s' (i + 1) (if decide (a = "/"%char) then i else found)
  end.

Definition rfind (s : string) : Z := rfind_from s 0 (-1).

(** [s[n:]] and [s[:n]] for [n] that is not negative *)
Fixpoint str_drop (n : nat) (s : string) : string :=
  match n, s with
  | S n', String _ s' => str_drop n' s'
  | _, _ => s
  end.

Fixpoint str_take (n : nat) (s : string) : string :=
  match n, s with
  | S n', String a s' => String a (str_take n' s')
  | _, _ => EmptyString
  end.

(** [os.path.basename(p)]: [i = p.rfind('/') + 1; return p[i:]] *)
Definition basename (p : string) : string :=
  str_drop (Z.to_nat (rfind p + 1)) p.

(** The name the loop moves [file] to, and the directory it removes. *)
Definition filename_of (file : string) : string := last_item (split file).

Definition removed_dir (file : string) : string :=
  "mastDownload/HST/" +:+ str_take 9 (filename_of file).

(** *** The file system

    A file or a directory is named by the components of its path from the
    working directory; the working directory itself is the empty list.
    Files hold an image. *)

Record fsys : Type := Fsys {
  files : gmap (list string) ndarray;
  dirs : gset (list string)
}.

(** [FileNotFoundError], [NotADirectoryError], [IsADirectoryError] and the
    [OSError] of a directory that is not empty, each with the path given. *)
Inductive error : Type :=
| NotFound (path : string)
| NotADirectory (path : string)
| IsADirectory (path : string)
| NotEmpty (path : string).

(** [Unmodelled] is a call the model says nothing about: an absolute path, a
    path through "..", the working directory itself as a target, a file
    named with a final "/" or ".", a directory given to be renamed. *)
Inductive outcome : Type :=
| Fine (fs : fsys)
| Fails (e : error)
| Unmodelled.

Definition and_then (o : outcome) (k : fsys -> outcome) : outcome :=
  match o with
  | Fine fs => k fs
  | Fails e => Fails e
  | Unmodelled => Unmodelled
  end.

(** The components a relative path resolves to: empty pieces and "." name
    no step. *)
Definition components (p : string) : list string :=
  filter (λ c : string, c ≠ EmptyString ∧ c ≠ ".") (split p).

Definition relative (p : string) : bool :=
  match p with
  | String a _ => bool_decide (a ≠ "/"%char)
  | EmptyString => true
  end.

Definition modelled (p : string) : bool :=
  relative p && bool_decide (".." ∉ split p).

(** The path names its last component itself, not through a final "/" or
    ".". *)
Definition names_entry (p : string) : bool :=
  bool_decide (last_item (split p) ≠ EmptyString ∧ last_item (split p) ≠ ".").

(** The directories strictly above [r], the working directory apart. *)
Definition above (r : list string) : list (list string) :=
  (λ i, take i r) <$> seq 1 (length r - 1).

(** A file stands where the path needs a directory. *)
Definition file_above (fs : fsys) (r : list string) : bool :=
  bool_decide (Exists (λ q, is_Some (files fs !! q)) (above r)).

(** The directory [r] holds a file or a directory. *)
Definition has_entries (fs : fsys) (r : list string) : bool :=
  bool_decide (set_Exists (λ q : list string, q ≠ [] ∧ removelast q = r)
                          (dom (files fs) ∪ dirs fs)).

Definition missing (fs : fsys) (p : string) (r : list string) : outcome :=
  if file_above fs r then Fails (NotADirectory p) else Fails (NotFound p).

(** [os.rmdir(p)] *)
Definition rmdir (p : string) (fs : fsys) : outcome :=
  if decide (p = EmptyString) then Fails (NotFound p)
  else if negb (modelled p) then Unmodelled
  else
    let r := components p in
    if decide (r = []) then Unmodelled
    else if decide (r ∈ dirs fs) then
      if has_entries fs r then Fails (NotEmpty p)
      else Fine (Fsys (files fs) (dirs fs ∖ {[ r ]}))
    else if decide (is_Some (files fs !! r)) then Fails (NotADirectory p)
    else missing fs p r.

(** The last step of the path is ".", after which a final "/" may come. *)
Definition ends_in_dot (p : string) : bool :=
  bool_decide (last_item (filter (λ c : string, c ≠ EmptyString) (split p)) = ".").

(** [os.rename(src, dst)] for a file [src].  The directory of [src] is
    looked up before [dst] is looked at, so that with an empty [dst] a file
    standing where [src] needs a directory is reported first. *)
Definition rename (src dst : string) (fs : fsys) : outcome :=
  if decide (src = EmptyString) then Fails (NotFound src)
  else if decide (dst = EmptyString) then
    if negb (modelled src) || ends_in_dot src then Unmodelled
    else missing fs src (components src)
  else if negb (modelled src && modelled dst) then Unmodelled
  else
    let s := components src in
    let d := components dst in
    match files fs !! s with
    | Some a =>
        if negb (names_entry src && names_entry dst) then Unmodelled
        else if decide (d ∈ dirs fs) then Fails (IsADirectory src)
        else if decide (removelast d = [] ∨ removelast d ∈ dirs fs) then
          Fine (Fsys (<[d := a]> (delete s (files fs))) (dirs fs))
        else missing fs src d
    | None =>
        if decide (s = [] ∨ s ∈ dirs fs) then Unmodelled
        else missing fs src s
    end.

(** The loop over the downloaded files, and the cell after it. *)
Fixpoint move_files (local_paths : list string) (fs : fsys) : outcome :=
  match local_paths with
  | [] => Fine fs
  | file :: rest =>
      and_then (rename file (basename file) fs) (λ fs,
      and_then (rmdir (removed_dir file) fs) (move_files rest))
  end.

Definition tidy_up (local_paths : list string) (fs : fsys) : outcome :=
  and_then (move_files local_paths fs) (λ fs,
  and_then (rmdir "mastDownload/HST/" fs) (rmdir "mastDownload/")).

(** One product in its dataset directory, and a second product beside it. *)
Definition fs_one : fsys :=
  Fsys {[ ["mastDownload"; "HST"; "idgga5m1q"; "idgga5m1q_flt.fits"] := image_demo ]}
       {[ ["mastDownload"]; ["mastDownload"; "HST"];
          ["mastDownload"; "HST"; "idgga5m1q"] ]}.

Definition fs_two : fsys :=
  Fsys (<[ ["mastDownload"; "HST"; "idgga5m1q"; "idgga5m1q_raw.fits"] := image_other ]>
          (files fs_one))
       (dirs fs_one).

End Os.

(** A path component that [Os.components] keeps. *)
Definition good_name (c : string) : Prop := c ≠ EmptyString ∧ c ≠ ".".
(** * Proofs *)

(** ** Checks of the scalar operations *)

Example corners_demo : subarray_corners hdr_demo = Ok (Corners 1 1 3 3)%Z.
Proof. vm_compute. reflexivity. Qed.

Example correct_demo :
  correct world_demo 1%positive hdr_demo "" = Done (NdArray 2 2 [[20; 40]; [60; 80]]%float).
Proof. vm_compute. reflexivity. Qed.

Example float_to_int_ex : float_to_int (-1537.75)%float = Ok (-1537)%Z.
Proof. vm_compute. reflexivity. Qed.

Example int_to_float_ex : int_to_float 9007199254740993%Z = Ok 9007199254740992%float.
Proof. vm_compute. reflexivity. Qed.

Example py_eq_ex : py_eq (HFloat 1%float) 1%Z = true ∧ py_eq (HFloat 1.5%float) 1%Z = false
  ∧ py_eq (HFloat 0.5%float) 1%Z = false ∧ py_eq (HFloat 2%float) 2%Z = true.
Proof. vm_compute. auto. Qed.

(** ** Binary64 multiplication by one *)

Lemma Prim2SF_one : Prim2SF 1%float = S754_finite false 4503599627370496 (-52).
Proof. vm_compute. reflexivity. Qed.

Lemma digits_shift52 m :
  Zdigits2 (Z.pos (4503599627370496 * m)) = (Z.pos (digits2_pos m) + 52)%Z.
Proof.
  cbv [Pos.mul]. cbn [Zdigits2 digits2_pos].
  rewrite !Pos2Z.inj_succ. lia.
Qed.

Lemma shr_shift52 m :
  SpecFloat.iter_pos shr_1 52
    (Build_shr_record (Z.pos (4503599627370496 * m)) false false)
  = Build_shr_record (Z.pos m) false false.
Proof. cbv [Pos.mul]. cbn [SpecFloat.iter_pos shr_1 orb]. reflexivity. Qed.

(** The product of a valid binary64 and 1 is rounded from a mantissa
    shifted by 52 bits, which the rounding shifts back without loss. *)
Lemma SF64mul_one_r s :
  valid_binary s = true ->
  SF64mul s (S754_finite false 4503599627370496 (-52)) = s.
Proof.
  intros Hv. destruct s as [sg | sg | | sg m e]; unfold SF64mul, SFmul.
  - rewrite xorb_false_r. reflexivity.
  - rewrite xorb_false_r. reflexivity.
  - reflexivity.
  - cbn [SpecFloat.valid_binary] in Hv. unfold bounded, canonical_mantissa in Hv.
    apply andb_prop in Hv. destruct Hv as [Hc Hb].
    apply Z.eqb_eq in Hc.
    rewrite xorb_false_r, Pos.mul_comm.
    unfold binary_round_aux, shr_fexp.
    rewrite digits_shift52.
    replace (Z.pos (digits2_pos m) + 52 + (e + -52))%Z
      with (Z.pos (digits2_pos m) + e)%Z by lia.
    rewrite Hc.
    replace (e - (e + -52))%Z with 52%Z by lia.
    unfold shr at 1. cbn [shr_record_of_loc].
    rewrite shr_shift52.
    cbn [shr_m loc_of_shr_record round_nearest_even shr_record_of_loc].
    replace (e + -52 + 52)%Z with e by lia.
    cbn [Zdigits2]. rewrite Hc, Z.sub_diag.
    cbn [shr shr_m]. rewrite Hb. reflexivity.
Qed.

Lemma mul_one_r (x : float) : (x * 1)%float = x.
Proof.
  apply Prim2SF_inj. rewrite mul_spec, Prim2SF_one.
  apply SF64mul_one_r, Prim2SF_valid.
Qed.

(** ** The corners *)

Lemma truncate_abs_pos (s : bool) (a : Z) (b : positive) :
  (0 ≤ a)%Z ->
  spec_origin (if s then Qopp (a # b) else (a # b)) = (a / Z.pos b)%Z.
Proof.
  intros Ha. unfold spec_origin, truncate.
  destruct s; cbn [Qopp Qabs Qnum Qden].
  - rewrite Z.abs_opp, Z.abs_eq by exact Ha. apply Z.quot_div_nonneg; lia.
  - rewrite Z.abs_eq by exact Ha. apply Z.quot_div_nonneg; lia.
Qed.

(** [int(np.abs(f))] is the absolute value of [f] truncated toward zero. *)
Lemma int_abs_float f q :
  float_value f = Some q ->
  res_bind (np_abs (HFloat f)) py_int = Ok (spec_origin q).
Proof.
  unfold float_value. cbn [np_abs res_bind py_int]. unfold float_to_int.
  rewrite abs_spec.
  destruct (Prim2SF f) as [s | s | | s m e]; try discriminate.
  - intros [= <-]. reflexivity.
  - intros [= <-]. cbn [SFabs]. f_equal.
    destruct (0 <=? e)%Z eqn:He.
    + apply Z.leb_le in He. unfold inject_Z.
      rewrite truncate_abs_pos by lia.
      rewrite Z.div_1_r. apply Z.shiftl_mul_pow2, He.
    + apply Z.leb_gt in He.
      rewrite truncate_abs_pos by lia.
      rewrite Z2Pos.id by (apply Z.pow_pos_nonneg; lia).
      rewrite <- Z.shiftr_div_pow2 by lia.
      rewrite <- Z.shiftr_opp_r. f_equal.
Qed.

Lemma int_abs_int z :
  z ≠ int64_min ->
  res_bind (np_abs (HInt z)) py_int = Ok (spec_origin (inject_Z z)).
Proof.
  intros Hz. cbn [np_abs res_bind py_int].
  destruct (Z.eqb_spec z int64_min) as [E | _]; [contradiction |].
  f_equal. unfold spec_origin, truncate, inject_Z. cbn [Qabs Qnum Qden].
  symmetry. apply Z.quot_1_r.
Qed.

Lemma int_abs_keyword (scihdr : header) key v q :
  scihdr !! key = Some v -> keyword_value v = Some q -> v ≠ HInt int64_min ->
  int_abs_of scihdr key = Ok (spec_origin q).
Proof.
  intros Hv Hq Hmin. unfold int_abs_of, getitem. rewrite Hv. cbn [res_bind].
  destruct v as [z | f | s | b]; try discriminate.
  - injection Hq as <-. apply int_abs_int. congruence.
  - apply int_abs_float, Hq.
Qed.

Lemma spec_origin_nonneg q : (0 ≤ spec_origin q)%Z.
Proof.
  unfold spec_origin, truncate. destruct q as [a b]. cbn [Qabs Qnum Qden].
  apply Z.quot_pos; lia.
Qed.

(** The origin is never negative, the wrap-around of the least 64-bit
    integer apart. *)
Lemma origin_nonneg (scihdr : header) key z :
  int_abs_of scihdr key = Ok z -> scihdr !! key ≠ Some (HInt int64_min) -> (0 ≤ z)%Z.
Proof.
  unfold int_abs_of, getitem.
  destruct (scihdr !! key) as [[n | f | s | b] |]; try discriminate;
    cbn [res_bind np_abs py_int].
  - intros [= <-] Hmin. destruct (Z.eqb_spec n int64_min) as [-> | _]; [congruence | lia].
  - unfold float_to_int. rewrite abs_spec.
    destruct (Prim2SF f) as [s | s | | s m e]; try discriminate; cbn [SFabs].
    + intros [= <-] _. lia.
    + intros [= <-] _. apply Z.shiftl_nonneg. lia.
  - intros [= <-] _. destruct b; lia.
Qed.

(** ** Slices *)

Lemma slice_index_le len i : slice_index len i ≤ len.
Proof. unfold slice_index. destruct (i <? 0)%Z eqn:E; lia. Qed.

Lemma slice_index_inside len i :
  (0 ≤ i ≤ Z.of_nat len)%Z -> slice_index len i = Z.to_nat i.
Proof. intros H. unfold slice_index. destruct (i <? 0)%Z eqn:E; lia. Qed.

Lemma slice_index_clipped len i :
  (Z.of_nat len ≤ i)%Z -> slice_index len i = len.
Proof. intros H. unfold slice_index. destruct (i <? 0)%Z eqn:E; lia. Qed.

Lemma length_sub_list {A : Type} lo hi (l : list A) :
  hi ≤ length l -> length (sub_list lo hi l) = hi - lo.
Proof. intros H. unfold sub_list. rewrite length_take, length_drop. lia. Qed.

Lemma lookup_sub_list {A : Type} lo hi (l : list A) i :
  i < hi - lo -> sub_list lo hi l !! i = l !! (lo + i).
Proof.
  intros H. unfold sub_list. rewrite lookup_take_lt by exact H.
  apply lookup_drop.
Qed.

Lemma region_wf pam c : wf_ndarray pam -> wf_ndarray (region_of pam c).
Proof.
  intros [Hrows Hcols]. unfold region_of, window_of, window_array, wf_ndarray.
  cbn [nrows ncols rows row_lo row_hi col_lo col_hi].
  split.
  - rewrite length_fmap. apply length_sub_list.
    rewrite Hrows. apply slice_index_le.
  - apply Forall_fmap. unfold sub_list at 2.
    apply Forall_take, Forall_drop.
    eapply Forall_impl; [exact Hcols |].
    intros r Hr. cbn. apply length_sub_list. rewrite Hr. apply slice_index_le.
Qed.

(** Within the map, cell [(r, k)] of the region is cell [(y0 + r, x0 + k)]
    of the map. *)
Lemma region_cell pam c r k :
  (0 ≤ y0 c ≤ y1 c)%Z -> (y1 c ≤ Z.of_nat (nrows pam))%Z ->
  (0 ≤ x0 c ≤ x1 c)%Z -> (x1 c ≤ Z.of_nat (ncols pam))%Z ->
  (Z.of_nat r < y1 c - y0 c)%Z -> (Z.of_nat k < x1 c - x0 c)%Z ->
  cell (region_of pam c) r k = cell pam (Z.to_nat (y0 c) + r) (Z.to_nat (x0 c) + k).
Proof.
  intros Hy Hy1 Hx Hx1 Hr Hk.
  unfold cell, region_of, window_of, window_array.
  cbn [nrows ncols rows row_lo row_hi col_lo col_hi].
  rewrite !slice_index_inside by lia.
  rewrite list_lookup_fmap, lookup_sub_list by lia.
  destruct (rows pam !! (Z.to_nat (y0 c) + r)) as [row |]; [| reflexivity].
  cbn. apply lookup_sub_list. lia.
Qed.

Lemma region_shape pam c :
  (0 ≤ y0 c ≤ y1 c)%Z -> (y1 c ≤ Z.of_nat (nrows pam))%Z ->
  (0 ≤ x0 c ≤ x1 c)%Z -> (x1 c ≤ Z.of_nat (ncols pam))%Z ->
  nrows (region_of pam c) = Z.to_nat (y1 c - y0 c)
  ∧ ncols (region_of pam c) = Z.to_nat (x1 c - x0 c).
Proof.
  intros Hy Hy1 Hx Hx1. unfold region_of, window_of, window_array.
  cbn [nrows ncols row_lo row_hi col_lo col_hi].
  rewrite !slice_index_inside by lia. lia.
Qed.

(** ** Multiplication of arrays *)

Lemma bcast_dim_same n : bcast_dim n n = Some n.
Proof. unfold bcast_dim. rewrite decide_True by reflexivity. reflexivity. Qed.

Lemma bcast_dim_None m n : bcast_dim m n = None ↔ mismatch m n.
Proof.
  unfold bcast_dim, mismatch.
  repeat case_decide; split; intros Hm; try discriminate; try tauto.
Qed.

Lemma stretch_id {A : Type} n (l : list A) : length l = n -> stretch n l = l.
Proof. destruct l as [| x [| y l]]; simpl; intros <-; reflexivity. Qed.

Lemma bcast_rows_id a : wf_ndarray a -> bcast_rows (nrows a) (ncols a) a = rows a.
Proof.
  intros [Hrows Hcols]. unfold bcast_rows.
  assert (Hid : stretch (ncols a) <$> rows a = rows a).
  { clear Hrows. induction Hcols as [| r l Hr _ IH]; [reflexivity |].
    cbn. rewrite (stretch_id _ _ Hr). f_equal. exact IH. }
  rewrite Hid. apply stretch_id, Hrows.
Qed.

Lemma multiply_same_shape a b :
  wf_ndarray a -> wf_ndarray b -> nrows b = nrows a -> ncols b = ncols a ->
  multiply a b
  = Ok (NdArray (nrows a) (ncols a)
                (zip_with (zip_with PrimFloat.mul) (rows a) (rows b))).
Proof.
  intros Ha Hb Hr Hc. unfold multiply. rewrite Hr, Hc, !bcast_dim_same.
  rewrite (bcast_rows_id a Ha).
  rewrite <- Hr, <- Hc, (bcast_rows_id b Hb). reflexivity.
Qed.

Lemma multiply_Err a b :
  multiply a b = Err broadcast_error
  ↔ mismatch (nrows a) (nrows b) ∨ mismatch (ncols a) (ncols b).
Proof.
  unfold multiply. rewrite <- !bcast_dim_None.
  destruct (bcast_dim (nrows a) (nrows b)), (bcast_dim (ncols a) (ncols b));
    split; intros H; try discriminate; try reflexivity; try tauto.
  - destruct H; discriminate.
Qed.

Lemma zip_rows_wf (f : float -> float -> float) n (l k : list (list float)) :
  Forall (λ r, length r = n) l -> Forall (λ r, length r = n) k ->
  Forall (λ r, length r = n) (zip_with (zip_with f) l k).
Proof.
  intros Hl. revert k. induction Hl as [| r l Hr _ IH]; intros k Hk; [constructor |].
  destruct Hk as [| s k Hs Hk]; [constructor |].
  cbn. constructor; [| by apply IH].
  rewrite length_zip_with. lia.
Qed.

Lemma zip_mul_ones (r k : list float) :
  length k = length r -> Forall (λ p, p = 1%float) k ->
  zip_with PrimFloat.mul r k = r.
Proof.
  revert k. induction r as [| x r IH]; intros k Hlen Hk; [reflexivity |].
  destruct Hk as [| p k -> Hk]; [discriminate |].
  cbn. rewrite mul_one_r. f_equal. apply IH; [by injection Hlen | exact Hk].
Qed.

Lemma zip_rows_ones n (l k : list (list float)) :
  length k = length l ->
  Forall (λ r, length r = n) l -> Forall (λ r, length r = n) k ->
  Forall (Forall (λ p, p = 1%float)) k ->
  zip_with (zip_with PrimFloat.mul) l k = l.
Proof.
  intros Hlen Hl. revert k Hlen.
  induction Hl as [| r l Hr _ IH]; intros k Hlen Hk Hone; [reflexivity |].
  destruct Hk as [| s k Hs Hk]; [discriminate |].
  apply Forall_cons in Hone as [Hs1 Hone].
  cbn. rewrite zip_mul_ones by (congruence || assumption).
  f_equal. apply IH; [by injection Hlen | exact Hk | exact Hone].
Qed.

Lemma zip_scale k (r p : list float) :
  length r = length p ->
  zip_with PrimFloat.mul (PrimFloat.mul k <$> r) p
  = PrimFloat.mul k <$> zip_with PrimFloat.mul r p
  ↔ Forall2 (associates k) r p.
Proof.
  revert p. induction r as [| x r IH]; intros [| y p] Hlen; try discriminate; cbn.
  - split; [constructor | reflexivity].
  - injection Hlen as Hlen. split.
    + intros [= Hxy Hrest]. constructor; [exact Hxy | by apply IH].
    + intros Hall. inversion Hall as [| ? ? ? ? Hxy Hrest]; subst.
      f_equal; [exact Hxy | by apply IH].
Qed.

Lemma zip_rows_scale k n (l q : list (list float)) :
  length l = length q ->
  Forall (λ r, length r = n) l -> Forall (λ r, length r = n) q ->
  zip_with (zip_with PrimFloat.mul) ((λ r : list float, PrimFloat.mul k <$> r) <$> l) q
  = (λ r : list float, PrimFloat.mul k <$> r) <$> zip_with (zip_with PrimFloat.mul) l q
  ↔ Forall2 (Forall2 (associates k)) l q.
Proof.
  intros Hlen Hl. revert q Hlen.
  induction Hl as [| r l Hr _ IH]; intros [| p q] Hlen Hq; try discriminate; cbn.
  - split; [constructor | reflexivity].
  - injection Hlen as Hlen. apply Forall_cons in Hq as [Hp Hq].
    assert (Hrp : length r = length p) by congruence.
    split.
    + intros [= Hhead Hrest]. constructor.
      * by apply zip_scale.
      * by apply IH.
    + intros Hall. inversion Hall as [| ? ? ? ? Hhead Hrest]; subst.
      f_equal; [by apply zip_scale | by apply IH].
Qed.

(** ** The monad: one step at a time *)

Section Steps.
Context {A B : Type}.

Lemma bind_done (m : M A) (k : A -> M B) σ a σ' :
  m σ = (Done a, σ') -> (m ≫= k) σ = k a σ'.
Proof. intros H. unfold mbind, M_bind. rewrite H. reflexivity. Qed.

Lemma bind_raised (m : M A) (k : A -> M B) σ e σ' :
  m σ = (Raised e, σ') -> (m ≫= k) σ = (Raised e, σ').
Proof. intros H. unfold mbind, M_bind. rewrite H. reflexivity. Qed.

Lemma bind_lift (r : res A) (k : A -> M B) σ :
  (lift r ≫= k) σ = match r with Ok a => k a σ | Err e => (Raised e, σ) end.
Proof. destruct r; reflexivity. Qed.
End Steps.

Lemma alloc_fresh a σ :
  ∃ l, alloc a σ = (Done l, World (<[l := a]> (heap σ)) (disk σ)) ∧ heap σ !! l = None.
Proof.
  exists (fresh (dom (heap σ))). split; [reflexivity |].
  apply not_elem_of_dom, is_fresh.
Qed.

Lemma load_some l a σ : heap σ !! l = Some a -> load l σ = (Done a, σ).
Proof. intros H. unfold load. rewrite H. reflexivity. Qed.

Lemma computes_raise e σ : computes (raise e) σ (Err e).
Proof. exists (Raised e), σ. repeat split; reflexivity. Qed.

Lemma computes_weaken (m : M loc) σ σ1 v :
  disk σ1 = disk σ -> heap σ ⊆ heap σ1 -> computes m σ1 v ->
  ∃ r σ', m σ1 = (r, σ') ∧ disk σ' = disk σ ∧ heap σ ⊆ heap σ' ∧
    match r, v with
    | Done l, Ok a => heap σ !! l = None ∧ heap σ' !! l = Some a
    | Raised e, Err e' => e = e'
    | _, _ => False
    end.
Proof.
  intros Hd Hh (r & σ' & Hrun & Hd' & Hh' & Hr).
  exists r, σ'. split; [exact Hrun |]. split; [congruence |].
  split; [etrans; eassumption |].
  destruct r as [l | e |], v as [a | e']; try exact Hr.
  destruct Hr as [Hn Hs]. split; [| exact Hs].
  eapply lookup_weaken_None; eassumption.
Qed.

Lemma multiply_computes σ l1 l2 image pam c :
  heap σ !! l1 = Some image -> heap σ !! l2 = Some pam ->
  computes (region ← np_slice l2 (y0 c) (y1 c) (x0 c) (x1 c);
            np_multiply (Base l1) region)
           σ (multiply image (region_of pam c)).
Proof.
  intros H1 H2. unfold computes, np_slice.
  rewrite (bind_done _ _ σ (View l2 (window_of pam (y0 c) (y1 c) (x0 c) (x1 c))) σ).
  2: { rewrite (bind_done _ _ σ pam σ); [reflexivity | by apply load_some]. }
  unfold np_multiply, deref.
  rewrite (bind_done _ _ σ image σ) by (by apply load_some).
  rewrite (bind_done _ _ σ (region_of pam c) σ).
  2: { rewrite (bind_done _ _ σ pam σ); [reflexivity | by apply load_some]. }
  rewrite bind_lift.
  destruct (multiply image (region_of pam c)) as [out | e].
  - destruct (alloc_fresh out σ) as (l & Hl & Hn).
    exists (Done l), (World (<[l := out]> (heap σ)) (disk σ)).
    split; [exact Hl |]. split; [reflexivity |]. simpl.
    split; [by apply insert_subseteq |].
    split; [exact Hn | apply lookup_insert_eq].
  - exists (Raised e), σ. repeat split; reflexivity.
Qed.

Lemma branch_computes σ l1 image path c :
  heap σ !! l1 = Some image ->
  computes (pam ← fits_getdata path;
            region ← np_slice pam (y0 c) (y1 c) (x0 c) (x1 c);
            np_multiply (Base l1) region)
           σ (res_bind (read_file (disk σ) path)
                       (λ pam, multiply image (region_of pam c))).
Proof.
  intros H1. unfold read_file.
  destruct (disk σ !! path) as [pam |] eqn:Hfile; simpl.
  - destruct (alloc_fresh pam σ) as (l2 & Hl2 & Hn2).
    set (σ2 := World (<[l2 := pam]> (heap σ)) (disk σ)) in *.
    assert (Hget : fits_getdata path σ = (Done l2, σ2)).
    { unfold fits_getdata. rewrite Hfile. exact Hl2. }
    assert (Hsub : heap σ ⊆ heap σ2) by (by apply insert_subseteq).
    destruct (computes_weaken
                (region ← np_slice l2 (y0 c) (y1 c) (x0 c) (x1 c);
                 np_multiply (Base l1) region)
                σ σ2 (multiply image (region_of pam c)))
      as (r & σ' & Hrun & Hd & Hh & Hr).
    + reflexivity.
    + exact Hsub.
    + apply multiply_computes.
      * simpl. rewrite lookup_insert_ne; [exact H1 | congruence].
      * simpl. apply lookup_insert_eq.
    + exists r, σ'. split; [| by repeat split].
      rewrite (bind_done _ _ σ l2 σ2 Hget). exact Hrun.
  - exists (Raised (FileNotFoundError path)), σ.
    split; [| repeat split; reflexivity].
    apply bind_raised. unfold fits_getdata. rewrite Hfile. reflexivity.
Qed.

(** The function, run on an image of the heap, computes [corrected]. *)
Lemma make_PAMcorr_image_UVIS_computes σ data scihdr pamdir image :
  heap σ !! data = Some image ->
  computes (make_PAMcorr_image_UVIS data scihdr pamdir) σ
           (corrected image scihdr (disk σ) pamdir).
Proof.
  intros Hdata.
  destruct (alloc_fresh image σ) as (l1 & Hl1 & Hn1).
  set (σ1 := World (<[l1 := image]> (heap σ)) (disk σ)) in *.
  assert (Hcopy : np_copy data σ = (Done l1, σ1)).
  { unfold np_copy. rewrite (bind_done _ _ σ image σ); [exact Hl1 | by apply load_some]. }
  assert (Hsub : heap σ ⊆ heap σ1) by (by apply insert_subseteq).
  assert (Himg : heap σ1 !! l1 = Some image) by apply lookup_insert_eq.
  unfold make_PAMcorr_image_UVIS.
  assert (Hraise : ∀ e, computes (λ _, (Raised e, σ1)) σ (Err e)).
  { intros e. exists (Raised e), σ1. repeat split; done. }
  unfold computes. rewrite (bind_done _ _ σ l1 σ1 Hcopy).
  unfold corrected, subarray_corners.
  rewrite bind_lift.
  destruct (int_abs_of scihdr "LTV1") as [vx0 | e]; simpl; [| apply (Hraise e)].
  rewrite bind_lift.
  destruct (int_abs_of scihdr "LTV2") as [vy0 | e]; simpl; [| apply (Hraise e)].
  rewrite bind_lift.
  destruct (int_sum_of vx0 scihdr "NAXIS1") as [vx1 | e]; simpl; [| apply (Hraise e)].
  rewrite bind_lift.
  destruct (int_sum_of vy0 scihdr "NAXIS2") as [vy1 | e]; simpl; [| apply (Hraise e)].
  rewrite bind_lift.
  destruct (getitem scihdr "CCDCHIP") as [chip | e]; simpl; [| apply (Hraise e)].
  unfold pam_file.
  destruct (py_eq chip 1) eqn:Hc1; simpl.
  - apply (computes_weaken _ σ σ1); [reflexivity | exact Hsub |].
    apply (branch_computes σ1 l1 image _ (Corners vx0 vy0 vx1 vy1) Himg).
  - rewrite (bind_done _ _ σ1 chip σ1) by reflexivity.
    destruct (py_eq chip 2) eqn:Hc2; simpl.
    + apply (computes_weaken _ σ σ1); [reflexivity | exact Hsub |].
      apply (branch_computes σ1 l1 image _ (Corners vx0 vy0 vx1 vy1) Himg).
    + apply (Hraise (Exception "Chip case not handled.")).
Qed.

Lemma correct_corrected σ data scihdr pamdir image :
  heap σ !! data = Some image ->
  correct σ data scihdr pamdir = of_res (corrected image scihdr (disk σ) pamdir).
Proof.
  intros Hdata.
  destruct (make_PAMcorr_image_UVIS_computes σ data scihdr pamdir image Hdata)
    as (r & σ' & Hrun & _ & _ & Hr).
  unfold correct, returned. rewrite Hrun.
  destruct r as [l | e |], (corrected image scihdr (disk σ) pamdir) as [a | e'];
    try contradiction; simpl.
  - destruct Hr as [_ ->]. reflexivity.
  - by subst.
Qed.

(** ** Calls on a selected map *)

Lemma corrected_chip image scihdr files pamdir c chip :
  subarray_corners scihdr = Ok c -> scihdr !! "CCDCHIP" = Some chip ->
  corrected image scihdr files pamdir
  = res_bind (pam_file chip) (λ name,
    res_bind (read_file files (pamdir +:+ name)) (λ pam,
    multiply image (region_of pam c))).
Proof.
  intros Hc Hchip. unfold corrected, getitem. rewrite Hc, Hchip. reflexivity.
Qed.

Lemma corrected_not_handled image scihdr files pamdir chip :
  scihdr !! "CCDCHIP" = Some chip -> py_eq chip 1 = false -> py_eq chip 2 = false ->
  ∃ e, corrected image scihdr files pamdir = Err e.
Proof.
  intros Hchip H1 H2. unfold corrected, getitem, pam_file.
  rewrite Hchip.
  destruct (subarray_corners scihdr); simpl; [rewrite H1, H2 |]; eauto.
Qed.

Lemma selected_path_Some scihdr pamdir p :
  selected_path scihdr pamdir = Some p ->
  ∃ chip name, scihdr !! "CCDCHIP" = Some chip ∧ pam_file chip = Ok name
               ∧ p = pamdir +:+ name.
Proof.
  unfold selected_path, getitem.
  destruct (scihdr !! "CCDCHIP") as [chip |]; [| discriminate]. simpl.
  destruct (pam_file chip) as [name | e] eqn:Hname; [| discriminate].
  intros [= <-]. eauto.
Qed.

Lemma corrected_selected image scihdr files pamdir c p pam :
  subarray_corners scihdr = Ok c ->
  selected_path scihdr pamdir = Some p -> files !! p = Some pam ->
  corrected image scihdr files pamdir = multiply image (region_of pam c).
Proof.
  intros Hc Hp Hfile.
  destruct (selected_path_Some _ _ _ Hp) as (chip & name & Hchip & Hname & ->).
  rewrite (corrected_chip _ _ _ _ c chip Hc Hchip), Hname. simpl.
  unfold read_file. rewrite Hfile. reflexivity.
Qed.

Lemma correct_selected σ data scihdr pamdir image c p pam :
  heap σ !! data = Some image ->
  subarray_corners scihdr = Ok c ->
  selected_path scihdr pamdir = Some p -> disk σ !! p = Some pam ->
  correct σ data scihdr pamdir = of_res (multiply image (region_of pam c)).
Proof.
  intros Hdata Hc Hp Hfile.
  rewrite (correct_corrected _ _ _ _ image Hdata).
  f_equal. eapply corrected_selected; eassumption.
Qed.

Lemma corners_naxis scihdr c n1 n2 :
  subarray_corners scihdr = Ok c ->
  scihdr !! "NAXIS1" = Some (HInt n1) -> scihdr !! "NAXIS2" = Some (HInt n2) ->
  x1 c = (x0 c + n1)%Z ∧ y1 c = (y0 c + n2)%Z.
Proof.
  intros Hc H1 H2. unfold subarray_corners, int_sum_of, getitem in Hc.
  rewrite H1, H2 in Hc.
  destruct (int_abs_of scihdr "LTV1") as [vx0 |]; [| discriminate].
  destruct (int_abs_of scihdr "LTV2") as [vy0 |]; [| discriminate].
  simpl in Hc. injection Hc as <-. simpl. split; reflexivity.
Qed.

Lemma correct_valid σ data scihdr pamdir image pam c :
  valid_input σ data scihdr pamdir image pam c ->
  wf_ndarray (region_of pam c)
  ∧ nrows (region_of pam c) = nrows image
  ∧ ncols (region_of pam c) = ncols image
  ∧ correct σ data scihdr pamdir
    = Done (NdArray (nrows image) (ncols image)
                    (zip_with (zip_with PrimFloat.mul)
                              (rows image) (rows (region_of pam c)))).
Proof.
  intros [Hdata Hwf Hc Hn1 Hn2 (p & Hp & Hfile) Hpwf [Hx0 Hx1] [Hy0 Hy1]].
  destruct (corners_naxis _ _ _ _ Hc Hn1 Hn2) as [Ex Ey].
  assert (Hreg := region_wf pam c Hpwf).
  destruct (region_shape pam c) as [Hr Hk]; try lia.
  assert (Hr' : nrows (region_of pam c) = nrows image) by lia.
  assert (Hk' : ncols (region_of pam c) = ncols image) by lia.
  split; [exact Hreg |]. split; [exact Hr' |]. split; [exact Hk' |].
  rewrite (correct_selected _ _ _ _ image c p pam Hdata Hc Hp Hfile).
  rewrite (multiply_same_shape _ _ Hwf Hreg Hr' Hk'). reflexivity.
Qed.

(** ** Cell by cell *)

Lemma cell_zip a b r k :
  cell (NdArray (nrows a) (ncols a)
          (zip_with (zip_with PrimFloat.mul) (rows a) (rows b))) r k
  = x ← cell a r k; p ← cell b r k; Some (x * p)%float.
Proof.
  unfold cell. cbn [rows]. rewrite lookup_zip_with.
  destruct (rows a !! r) as [ra |]; [| reflexivity]. cbn.
  destruct (rows b !! r) as [rb |]; cbn.
  - rewrite lookup_zip_with. reflexivity.
  - destruct (ra !! k); reflexivity.
Qed.

Lemma cell_Some a r k x :
  wf_ndarray a -> cell a r k = Some x -> r < nrows a ∧ k < ncols a.
Proof.
  intros [Hrows Hcols] Hcell. unfold cell in Hcell.
  destruct (rows a !! r) as [row |] eqn:Hrow; [| discriminate]. cbn in Hcell.
  split.
  - rewrite <- Hrows. eapply lookup_lt_Some, Hrow.
  - rewrite Forall_forall in Hcols.
    rewrite <- (Hcols row) by (eapply list_elem_of_lookup_2, Hrow).
    eapply lookup_lt_Some, Hcell.
Qed.

Lemma cell_is_Some a r k :
  wf_ndarray a -> r < nrows a -> k < ncols a -> is_Some (cell a r k).
Proof.
  intros [Hrows Hcols] Hr Hk. unfold cell.
  destruct (lookup_lt_is_Some_2 (rows a) r) as [row Hrow]; [lia |].
  rewrite Hrow. cbn. apply lookup_lt_is_Some_2.
  rewrite Forall_forall in Hcols.
  rewrite (Hcols row) by (eapply list_elem_of_lookup_2, Hrow). exact Hk.
Qed.

Lemma result_cell σ data scihdr pamdir image pam c r k :
  valid_input σ data scihdr pamdir image pam c ->
  cell (NdArray (nrows image) (ncols image)
          (zip_with (zip_with PrimFloat.mul) (rows image) (rows (region_of pam c))))
       r k
  = x ← cell image r k;
    p ← cell pam (Z.to_nat (y0 c) + r) (Z.to_nat (x0 c) + k);
    Some (x * p)%float.
Proof.
  intros Hv.
  destruct (correct_valid _ _ _ _ _ _ _ Hv) as (Hreg & Hr & Hk & _).
  destruct Hv as [_ Hwf Hc Hn1 Hn2 _ Hpwf [Hx0 Hx1] [Hy0 Hy1]].
  destruct (corners_naxis _ _ _ _ Hc Hn1 Hn2) as [Ex Ey].
  rewrite cell_zip.
  destruct (cell image r k) as [x |] eqn:Hx; [| reflexivity].
  destruct (cell_Some _ _ _ _ Hwf Hx) as [Hlr Hlk].
  cbn. rewrite region_cell by lia. reflexivity.
Qed.

(** ** Concrete valid inputs *)

(** A concrete input is checked to be valid by evaluation. *)
Ltac check_valid_input :=
  split;
  [ reflexivity
  | split; [reflexivity | repeat constructor]
  | vm_compute; reflexivity
  | reflexivity
  | reflexivity
  | eexists; split; reflexivity
  | split; [reflexivity | repeat constructor]
  | cbn; lia
  | cbn; lia ].

Lemma valid_demo :
  valid_input world_demo 1%positive hdr_demo "" image_demo pam_demo (Corners 1 1 3 3)%Z.
Proof. check_valid_input. Defined.

(** ** Comparison with an integer literal *)

(** [v == n] holds only of [True == 1], [False == 0] and of a number whose
    value is [n]. *)
Lemma py_eq_true v n :
  py_eq v n = true ->
  (v = HBool true ∧ n = 1%Z) ∨ (v = HBool false ∧ n = 0%Z)
  ∨ ∃ q, keyword_value v = Some q ∧ (q == inject_Z n)%Q.
Proof.
  destruct v as [z | f | s | b]; cbn [py_eq keyword_value].
  - intros ->%Z.eqb_eq. right. right. eexists. split; [reflexivity |]. reflexivity.
  - unfold float_value.
    destruct (Prim2SF f) as [s | s | | s m e]; try discriminate.
    + intros ->%Z.eqb_eq. right. right. eexists. split; reflexivity.
    + intros H. right. right. eexists. split; [reflexivity |].
      destruct (0 <=? e)%Z eqn:He.
      * apply Z.eqb_eq in H. subst n.
        destruct s; unfold Qeq, inject_Z; cbn [Qopp Qnum Qden]; lia.
      * apply Z.leb_gt in He. apply Z.eqb_eq in H.
        assert (Hpow : (0 < 2 ^ (- e))%Z) by (apply Z.pow_pos_nonneg; lia).
        destruct s; unfold Qeq, inject_Z; cbn [Qopp Qnum Qden];
          rewrite Z2Pos.id by exact Hpow; lia.
  - discriminate.
  - destruct b; intros H%Z.eqb_eq; subst n; auto.
Qed.

Lemma py_eq_neither chip :
  (∀ q, keyword_value chip = Some q -> ¬ (q == 1)%Q ∧ ¬ (q == 2)%Q) ->
  chip ≠ HBool true ->
  py_eq chip 1 = false ∧ py_eq chip 2 = false.
Proof.
  intros Hval Hbool. split.
  - destruct (py_eq chip 1) eqn:H; [| reflexivity].
    destruct (py_eq_true _ _ H) as [[-> _] | [[_ [=]] | (q & Hq & E)]];
      [contradiction |].
    destruct (Hval q Hq) as [H1 _]. contradiction.
  - destruct (py_eq chip 2) eqn:H; [| reflexivity].
    destruct (py_eq_true _ _ H) as [[_ [=]] | [[_ [=]] | (q & Hq & E)]].
    destruct (Hval q Hq) as [_ H2]. contradiction.
Qed.

(** * The claims *)

(** ** The concrete scenario *)

(** C1: on the image [[10,20],[30,40]], the header LTV1 = LTV2 = -1,
    NAXIS1 = NAXIS2 = 2, CCDCHIP = 1 and a chip-1 map of 4x4 cells 2.0, the
    corners are x0 = 1, y0 = 1, x1 = 3, y1 = 3, the region is 2x2 cells 2.0
    and the call returns [[20,40],[60,80]]; the same whether the offsets are
    stored as reals or as integers. *)
Theorem scenario_2x2 :
  subarray_corners hdr_demo = Ok (Corners 1 1 3 3)%Z
  ∧ subarray_corners hdr_demo_int = Ok (Corners 1 1 3 3)%Z
  ∧ region_of pam_demo (Corners 1 1 3 3)%Z = NdArray 2 2 [[2; 2]; [2; 2]]%float
  ∧ correct world_demo 1%positive hdr_demo ""
    = Done (NdArray 2 2 [[20; 40]; [60; 80]]%float)
  ∧ correct world_demo 1%positive hdr_demo_int ""
    = Done (NdArray 2 2 [[20; 40]; [60; 80]]%float).
Proof. repeat split; vm_compute; reflexivity. Qed.

(** ** The corners and the region *)

(** C2, as the code has it: for a header whose LTV1 and LTV2 hold a real
    number or an integer other than the least 64-bit integer, and whose
    NAXIS1 and NAXIS2 hold integers, x0 and y0 are the absolute values of
    LTV1 and LTV2 truncated toward zero, x1 = x0 + NAXIS1 and
    y1 = y0 + NAXIS2.  The call multiplies the image by the region
    [pam[y0:y1, x0:x1]] of the selected map; on a valid input the pixel at
    row [r] and column [k] of the result is the pixel of the image times
    the cell of the map at row [y0 + r] and column [x0 + k]. *)
Theorem corners_formula (scihdr : header) v1 v2 q1 q2 n1 n2 :
  scihdr !! "LTV1" = Some v1 -> keyword_value v1 = Some q1 -> v1 ≠ HInt int64_min ->
  scihdr !! "LTV2" = Some v2 -> keyword_value v2 = Some q2 -> v2 ≠ HInt int64_min ->
  scihdr !! "NAXIS1" = Some (HInt n1) -> scihdr !! "NAXIS2" = Some (HInt n2) ->
  let c := Corners (spec_origin q1) (spec_origin q2)
                   (spec_origin q1 + n1) (spec_origin q2 + n2) in
  subarray_corners scihdr = Ok c
  ∧ (∀ σ data image pamdir p pam,
      heap σ !! data = Some image ->
      selected_path scihdr pamdir = Some p -> disk σ !! p = Some pam ->
      correct σ data scihdr pamdir
      = of_res (multiply image
                  (window_array pam (window_of pam (y0 c) (y1 c) (x0 c) (x1 c)))))
  ∧ (∀ σ data image pamdir pam,
      valid_input σ data scihdr pamdir image pam c ->
      ∃ out, correct σ data scihdr pamdir = Done out
        ∧ nrows out = nrows image ∧ ncols out = ncols image
        ∧ ∀ r k,
            cell out r k
            = x ← cell image r k;
              p ← cell pam (Z.to_nat (spec_origin q2) + r)
                           (Z.to_nat (spec_origin q1) + k);
              Some (x * p)%float).
Proof.
  intros H1 Hq1 Hm1 H2 Hq2 Hm2 Hn1 Hn2 c.
  assert (Hc : subarray_corners scihdr = Ok c).
  { unfold subarray_corners.
    rewrite (int_abs_keyword _ _ _ _ H1 Hq1 Hm1), (int_abs_keyword _ _ _ _ H2 Hq2 Hm2).
    cbn [res_bind]. unfold int_sum_of, getitem. rewrite Hn1, Hn2. reflexivity. }
  split; [exact Hc |]. split.
  - intros σ data image pamdir p pam Hdata Hp Hfile.
    apply (correct_selected _ _ _ _ image c p pam Hdata Hc Hp Hfile).
  - intros σ data image pamdir pam Hv.
    destruct (correct_valid _ _ _ _ _ _ _ Hv) as (_ & _ & _ & ->).
    eexists. split; [reflexivity |]. split; [reflexivity |]. split; [reflexivity |].
    intros r k. apply (result_cell _ _ _ _ _ _ _ r k Hv).
Qed.

Lemma corners_formula_witness :
  subarray_corners hdr_real = Ok (Corners 1537 25 1539 27)
  ∧ ∃ out, correct world_demo 1%positive hdr_demo "" = Done out
           ∧ cell out 1 1 = Some 80%float.
Proof.
  split.
  - exact (proj1 (corners_formula hdr_real (HFloat (-1537.75)%float) (HInt (-25))
                    (- (6763096022450176 # 4398046511104))%Q (inject_Z (-25)) 2 2
                    eq_refl eq_refl ltac:(discriminate)
                    eq_refl eq_refl ltac:(discriminate)
                    eq_refl eq_refl)).
  - destruct (proj2 (proj2 (corners_formula hdr_demo (HFloat (-1)%float)
                              (HFloat (-1)%float)
                              (- (4503599627370496 # 4503599627370496))%Q
                              (- (4503599627370496 # 4503599627370496))%Q 2 2
                              eq_refl eq_refl ltac:(discriminate)
                              eq_refl eq_refl ltac:(discriminate)
                              eq_refl eq_refl))
                     world_demo 1%positive image_demo "" pam_demo valid_demo)
      as (out & Hrun & _ & _ & Hcell).
    exists out. split; [exact Hrun |]. rewrite Hcell. reflexivity.
Defined.

(** C2, as stated for every header, fails.  An LTV1 that holds the least
    64-bit integer has the absolute value 2^63, and the origin computed is
    -2^63; a NAXIS1 that holds the real 2.5 gives x1 = 3 for x0 = 1, where
    x0 + NAXIS1 is 3.5. *)
Lemma origin_not_absolute_value :
  hdr_least !! "LTV1" = Some (HInt int64_min)
  ∧ spec_origin (inject_Z int64_min) = 9223372036854775808%Z
  ∧ subarray_corners hdr_least
    = Ok (Corners (-9223372036854775808) 1 (-9223372036854775806) 3)
  ∧ hdr_fraction !! "NAXIS1" = Some (HFloat 2.5%float)
  ∧ (∃ q, keyword_value (HFloat 2.5%float) = Some q ∧ (q == 5 # 2)%Q
          ∧ ¬ (inject_Z 3 == inject_Z 1 + q)%Q)
  ∧ subarray_corners hdr_fraction = Ok (Corners 1 1 3 3).
Proof.
  split; [reflexivity |]. split; [vm_compute; reflexivity |].
  split; [vm_compute; reflexivity |]. split; [reflexivity |].
  split; [| vm_compute; reflexivity].
  eexists. split; [vm_compute; reflexivity |].
  split; unfold Qeq; cbn; lia.
Qed.

(** ** Chip dispatch *)

(** C3: a CCDCHIP whose value is neither 1 nor 2 (a number other than 1
    and 2, a string, [False]) makes the call raise and return no array;
    when the corners can be computed the exception is the one of the chip
    dispatch.  CCDCHIP = 1 (also 1.0 and [True], which Python compares
    equal to 1) multiplies by the region of the UVIS1 file and CCDCHIP = 2
    (also 2.0) by the region of the UVIS2 file, whatever the other file
    holds. *)
Theorem chip_dispatch σ data scihdr pamdir image chip :
  heap σ !! data = Some image ->
  scihdr !! "CCDCHIP" = Some chip ->
  ((∀ q, keyword_value chip = Some q -> ¬ (q == 1)%Q ∧ ¬ (q == 2)%Q) ->
   chip ≠ HBool true ->
     (∀ out, correct σ data scihdr pamdir ≠ Done out)
     ∧ (∀ c, subarray_corners scihdr = Ok c ->
          correct σ data scihdr pamdir = Raised (Exception "Chip case not handled.")))
  ∧ (chip = HInt 1 ∨ chip = HFloat 1%float ∨ chip = HBool true ->
     ∀ c, subarray_corners scihdr = Ok c ->
       correct σ data scihdr pamdir
       = of_res (res_bind (read_file (disk σ) (pamdir +:+ "UVIS1wfc3_map.fits"))
                          (λ pam, multiply image (region_of pam c))))
  ∧ (chip = HInt 2 ∨ chip = HFloat 2%float ->
     ∀ c, subarray_corners scihdr = Ok c ->
       correct σ data scihdr pamdir
       = of_res (res_bind (read_file (disk σ) (pamdir +:+ "UVIS2wfc3_map.fits"))
                          (λ pam, multiply image (region_of pam c)))).
Proof.
  intros Hdata Hchip.
  rewrite (correct_corrected σ data scihdr pamdir image Hdata).
  split; [| split].
  - intros Hval Hbool. destruct (py_eq_neither chip Hval Hbool) as [H1 H2]. split.
    + intros out.
      destruct (corrected_not_handled image scihdr (disk σ) pamdir chip Hchip H1 H2)
        as [e ->].
      discriminate.
    + intros c Hc. rewrite (corrected_chip _ _ _ _ c chip Hc Hchip).
      unfold pam_file. rewrite H1, H2. reflexivity.
  - intros Hone c Hc. rewrite (corrected_chip _ _ _ _ c chip Hc Hchip).
    destruct Hone as [-> | [-> | ->]]; reflexivity.
  - intros Htwo c Hc. rewrite (corrected_chip _ _ _ _ c chip Hc Hchip).
    destruct Htwo as [-> | ->]; reflexivity.
Qed.

(** A header without CCDCHIP raises on the lookup, and no array is returned
    either. *)
Lemma missing_chip_raises σ data (scihdr : header) pamdir image c :
  heap σ !! data = Some image ->
  subarray_corners scihdr = Ok c ->
  scihdr !! "CCDCHIP" = None ->
  correct σ data scihdr pamdir = Raised (KeyError "CCDCHIP").
Proof.
  intros Hdata Hc Hchip.
  rewrite (correct_corrected σ data scihdr pamdir image Hdata).
  unfold corrected, getitem. rewrite Hc, Hchip. reflexivity.
Qed.

(** Chip 3 raises; with a chip-1 map of cells 2.0 and a chip-2 map of cells
    1.0 on the disk, chip 1 doubles the image and chip 2 returns it. *)
Lemma chip_dispatch_witness :
  correct world_demo 1%positive hdr_chip3 ""
  = Raised (Exception "Chip case not handled.")
  ∧ correct world_alt 5%positive hdr_demo ""
    = Done (NdArray 2 2 [[20; 40]; [60; 80]]%float)
  ∧ correct world_alt 5%positive hdr_chip2 "" = Done image_demo.
Proof.
  assert (Hc : ∀ h, h = hdr_chip3 ∨ h = hdr_demo ∨ h = hdr_chip2 ->
               subarray_corners h = Ok (Corners 1 1 3 3)%Z).
  { intros h [-> | [-> | ->]]; vm_compute; reflexivity. }
  split; [| split].
  - refine (proj2 (proj1 (chip_dispatch world_demo 1%positive hdr_chip3 "" image_demo
                            (HInt 3%Z) eq_refl eq_refl) _ _)
                  (Corners 1 1 3 3)%Z (Hc _ (or_introl eq_refl))).
    + intros q [= <-]. split; intros E; unfold Qeq in E; cbn in E; lia.
    + discriminate.
  - eapply eq_trans.
    + exact (proj1 (proj2 (chip_dispatch world_alt 5%positive hdr_demo "" image_demo
                             (HInt 1%Z) eq_refl eq_refl))
                   (or_introl eq_refl) (Corners 1 1 3 3)%Z
                   (Hc _ (or_intror (or_introl eq_refl)))).
    + vm_compute. reflexivity.
  - eapply eq_trans.
    + exact (proj2 (proj2 (chip_dispatch world_alt 5%positive hdr_chip2 "" image_demo
                             (HInt 2%Z) eq_refl eq_refl))
                   (or_introl eq_refl) (Corners 1 1 3 3)%Z
                   (Hc _ (or_intror (or_intror eq_refl)))).
    + vm_compute. reflexivity.
Defined.

(** ** Sub-rectangles that leave the map, declared lengths that differ *)

Lemma of_res_Raised {A : Type} (r : res A) e : of_res r = Raised e ↔ r = Err e.
Proof. destruct r; simpl; split; intros H; congruence. Qed.

(** C4, as the code has it: a sub-rectangle that exceeds the map is clipped
    to the map, on the rows, on the columns or on both, and the call
    returns the product of the image and the clipped region under
    broadcasting; it raises, with the broadcasting error, exactly when on
    some axis the image and the clipped region have different lengths, none
    of them 1. *)
Theorem out_of_bounds_is_clipped σ data scihdr pamdir image pam c p :
  heap σ !! data = Some image ->
  subarray_corners scihdr = Ok c ->
  selected_path scihdr pamdir = Some p -> disk σ !! p = Some pam ->
  (0 ≤ x0 c)%Z -> (0 ≤ y0 c)%Z ->
  (Z.of_nat (nrows pam) < y1 c ∨ Z.of_nat (ncols pam) < x1 c)%Z ->
  ((Z.of_nat (nrows pam) < y1 c)%Z ->
     nrows (region_of pam c) = nrows pam - Z.to_nat (y0 c))
  ∧ ((Z.of_nat (ncols pam) < x1 c)%Z ->
     ncols (region_of pam c) = ncols pam - Z.to_nat (x0 c))
  ∧ correct σ data scihdr pamdir = of_res (multiply image (region_of pam c))
  ∧ (correct σ data scihdr pamdir = Raised broadcast_error
     ↔ mismatch (nrows image) (nrows (region_of pam c))
       ∨ mismatch (ncols image) (ncols (region_of pam c))).
Proof.
  intros Hdata Hc Hp Hfile Hx0 Hy0 _.
  assert (Hrun := correct_selected _ _ _ _ image c p pam Hdata Hc Hp Hfile).
  split; [| split; [| split]].
  - intros Hy1. unfold region_of, window_of, window_array.
    cbn [nrows row_lo row_hi].
    rewrite (slice_index_clipped _ (y1 c)) by lia.
    unfold slice_index. destruct (y0 c <? 0)%Z eqn:E; lia.
  - intros Hx1. unfold region_of, window_of, window_array.
    cbn [ncols col_lo col_hi].
    rewrite (slice_index_clipped _ (x1 c)) by lia.
    unfold slice_index. destruct (x0 c <? 0)%Z eqn:E; lia.
  - exact Hrun.
  - rewrite Hrun, of_res_Raised. apply multiply_Err.
Qed.

Lemma out_of_bounds_is_clipped_witness :
  (Z.of_nat (ncols pam_small) < x1 (Corners 0 0 2 1))%Z
  ∧ ncols (region_of pam_small (Corners 0 0 2 1)) = 1
  ∧ correct world_wide 1%positive hdr_wide ""
    = of_res (multiply image_wide (region_of pam_small (Corners 0 0 2 1))).
Proof.
  assert (Hout : (Z.of_nat (ncols pam_small) < x1 (Corners 0 0 2 1))%Z) by (cbn; lia).
  destruct (out_of_bounds_is_clipped world_wide 1%positive hdr_wide "" image_wide
              pam_small (Corners 0 0 2 1) "UVIS1wfc3_map.fits")
    as (_ & Hcols & Hrun & _);
    try reflexivity; try (cbn; lia).
  split; [exact Hout |]. split; [exact (Hcols Hout) | exact Hrun].
Defined.

(** C4, as stated, fails: with LTV1 = 0 and NAXIS1 = 2 on a map one column
    wide, the call returns an array. *)
Lemma clipped_result_returned :
  subarray_corners hdr_wide = Ok (Corners 0 0 2 1)
  ∧ disk world_wide !! "UVIS1wfc3_map.fits" = Some pam_small
  ∧ (Z.of_nat (ncols pam_small) < 2)%Z
  ∧ correct world_wide 1%positive hdr_wide "" = Done (NdArray 1 2 [[20; 40]]%float).
Proof.
  split; [vm_compute; reflexivity |]. split; [reflexivity |].
  split; [cbn; lia |]. vm_compute. reflexivity.
Qed.

(** C5, as the code has it: declared lengths are not compared with the
    shape of the image.  For a sub-rectangle within the map the region has
    NAXIS2 rows and NAXIS1 columns, and the call returns the product of the
    image and that region under broadcasting; it raises, with the
    broadcasting error, exactly when on some axis the declared and the
    actual length differ, none of them 1. *)
Theorem shape_mismatch_broadcasts σ data scihdr pamdir image pam c p n1 n2 :
  heap σ !! data = Some image ->
  subarray_corners scihdr = Ok c ->
  scihdr !! "NAXIS1" = Some (HInt n1) -> scihdr !! "NAXIS2" = Some (HInt n2) ->
  (0 ≤ n1)%Z -> (0 ≤ n2)%Z ->
  selected_path scihdr pamdir = Some p -> disk σ !! p = Some pam ->
  (0 ≤ x0 c ∧ x1 c ≤ Z.of_nat (ncols pam))%Z ->
  (0 ≤ y0 c ∧ y1 c ≤ Z.of_nat (nrows pam))%Z ->
  (n1 ≠ Z.of_nat (ncols image) ∨ n2 ≠ Z.of_nat (nrows image)) ->
  nrows (region_of pam c) = Z.to_nat n2
  ∧ ncols (region_of pam c) = Z.to_nat n1
  ∧ correct σ data scihdr pamdir = of_res (multiply image (region_of pam c))
  ∧ (correct σ data scihdr pamdir = Raised broadcast_error
     ↔ mismatch (nrows image) (Z.to_nat n2) ∨ mismatch (ncols image) (Z.to_nat n1)).
Proof.
  intros Hdata Hc Hn1 Hn2 Hp1 Hp2 Hp Hfile [Hx0 Hx1] [Hy0 Hy1] _.
  destruct (corners_naxis _ _ _ _ Hc Hn1 Hn2) as [Ex Ey].
  destruct (region_shape pam c) as [Hr Hk]; try lia.
  assert (Hr' : nrows (region_of pam c) = Z.to_nat n2) by lia.
  assert (Hk' : ncols (region_of pam c) = Z.to_nat n1) by lia.
  assert (Hrun := correct_selected _ _ _ _ image c p pam Hdata Hc Hp Hfile).
  split; [exact Hr' |]. split; [exact Hk' |]. split; [exact Hrun |].
  rewrite Hrun, of_res_Raised, multiply_Err, Hr', Hk'. reflexivity.
Qed.

Lemma shape_mismatch_broadcasts_witness :
  hdr_narrow !! "NAXIS1" = Some (HInt 1)
  ∧ ncols image_demo = 2
  ∧ ncols (region_of pam_demo (Corners 1 1 2 3)) = 1
  ∧ correct world_demo 1%positive hdr_narrow ""
    = of_res (multiply image_demo (region_of pam_demo (Corners 1 1 2 3))).
Proof.
  split; [reflexivity |]. split; [reflexivity |].
  assert (Hc : subarray_corners hdr_narrow = Ok (Corners 1 1 2 3))
    by (vm_compute; reflexivity).
  assert (Hx : (0 ≤ 1 ∧ 2 ≤ Z.of_nat (ncols pam_demo))%Z) by (cbn; lia).
  assert (Hy : (0 ≤ 1 ∧ 3 ≤ Z.of_nat (nrows pam_demo))%Z) by (cbn; lia).
  assert (Hne : (1 ≠ Z.of_nat (ncols image_demo) ∨ 2 ≠ Z.of_nat (nrows image_demo))%Z)
    by (left; cbn; lia).
  destruct (shape_mismatch_broadcasts world_demo 1%positive hdr_narrow "" image_demo
              pam_demo (Corners 1 1 2 3) "UVIS1wfc3_map.fits" 1 2
              eq_refl Hc eq_refl eq_refl
              (Z.le_0_1) (Z.le_0_2) eq_refl eq_refl Hx Hy Hne)
    as (_ & Hcols & Hrun & _).
  split; [exact Hcols | exact Hrun].
Defined.

(** C5, as stated, fails: with NAXIS1 = 1 declared for an image of two
    columns, the call returns an array. *)
Lemma mismatch_result_returned :
  hdr_narrow !! "NAXIS1" = Some (HInt 1)
  ∧ ncols image_demo = 2
  ∧ heap world_demo !! 1%positive = Some image_demo
  ∧ correct world_demo 1%positive hdr_narrow ""
    = Done (NdArray 2 2 [[20; 40]; [60; 80]]%float).
Proof.
  split; [reflexivity |]. split; [reflexivity |]. split; [reflexivity |].
  vm_compute. reflexivity.
Qed.

(** ** Valid inputs *)

(** C6: on a valid input the call returns an array of the shape of the
    image. *)
Theorem shape_preserved σ data scihdr pamdir image pam c :
  valid_input σ data scihdr pamdir image pam c ->
  ∃ out, correct σ data scihdr pamdir = Done out
         ∧ nrows out = nrows image ∧ ncols out = ncols image
         ∧ wf_ndarray out.
Proof.
  intros Hv. destruct (correct_valid _ _ _ _ _ _ _ Hv) as ([Hrl Hrc] & Hr & Hk & ->).
  destruct Hv as [_ [Hil Hic] _ _ _ _ _ _ _].
  eexists. split; [reflexivity |]. cbn [nrows ncols rows].
  split; [reflexivity |]. split; [reflexivity |]. split.
  - cbn [rows nrows]. rewrite length_zip_with. lia.
  - cbn [rows ncols]. apply zip_rows_wf; [exact Hic |].
    rewrite <- Hk. exact Hrc.
Qed.

Lemma shape_preserved_witness :
  ∃ out, correct world_demo 1%positive hdr_demo "" = Done out
         ∧ nrows out = 2 ∧ ncols out = 2 ∧ wf_ndarray out.
Proof. exact (shape_preserved _ _ _ _ _ _ _ valid_demo). Defined.

(** C7: on a valid input whose region holds 1.0 in every cell, the call
    returns the image. *)
Theorem identity_on_ones σ data scihdr pamdir image pam c :
  valid_input σ data scihdr pamdir image pam c ->
  Forall (Forall (λ p, p = 1%float)) (rows (region_of pam c)) ->
  correct σ data scihdr pamdir = Done image.
Proof.
  intros Hv Hone.
  destruct (correct_valid _ _ _ _ _ _ _ Hv) as ([Hrl Hrc] & Hr & Hk & ->).
  destruct Hv as [_ [Hil Hic] _ _ _ _ _ _ _].
  rewrite (zip_rows_ones (ncols image)); [by destruct image | lia | exact Hic | | exact Hone].
  rewrite <- Hk. exact Hrc.
Qed.

Lemma valid_ones :
  valid_input world_ones 1%positive hdr_demo "" image_demo pam_ones (Corners 1 1 3 3)%Z.
Proof. check_valid_input. Defined.

Lemma identity_on_ones_witness :
  correct world_ones 1%positive hdr_demo "" = Done image_demo.
Proof.
  apply (identity_on_ones _ _ _ _ _ _ _ valid_ones).
  repeat constructor.
Defined.

(** ** Linearity *)

Lemma valid_scaled σ data datak scihdr pamdir image pam c k :
  valid_input σ data scihdr pamdir image pam c ->
  heap σ !! datak = Some (scale k image) ->
  valid_input σ datak scihdr pamdir (scale k image) pam c.
Proof.
  intros [Hdata [Hil Hic] Hc Hn1 Hn2 Hp Hpwf Hx Hy] Hk.
  split; try assumption.
  split; cbn [scale rows nrows ncols].
  - rewrite length_fmap. exact Hil.
  - apply Forall_fmap. eapply Forall_impl; [exact Hic |].
    intros r Hr. cbn. rewrite length_fmap. exact Hr.
Qed.

(** C8, as the code has it: on a valid input, the call on [k * image]
    returns [k] times what the call on the image returns exactly when, for
    every pixel [x] and the map cell [p] under it, binary64 multiplication
    gives [(k * x) * p = k * (x * p)]. *)
Theorem linear_when_associative σ data datak scihdr pamdir image pam c k :
  valid_input σ data scihdr pamdir image pam c ->
  heap σ !! datak = Some (scale k image) ->
  correct σ datak scihdr pamdir
  = outcome_map (scale k) (correct σ data scihdr pamdir)
  ↔ Forall2 (Forall2 (associates k)) (rows image) (rows (region_of pam c)).
Proof.
  intros Hv Hk.
  destruct (correct_valid _ _ _ _ _ _ _ (valid_scaled _ _ _ _ _ _ _ _ k Hv Hk))
    as (_ & _ & _ & ->).
  destruct (correct_valid _ _ _ _ _ _ _ Hv) as ([Hrl Hrc] & Hr & Hc & ->).
  destruct Hv as [_ [Hil Hic] _ _ _ _ _ _ _].
  cbn [outcome_map scale nrows ncols rows].
  rewrite <- (zip_rows_scale k (ncols image));
    [| lia | exact Hic | rewrite <- Hc; exact Hrc].
  split; [intros [= Hrows]; exact Hrows | intros ->; reflexivity].
Qed.

Lemma valid_in_world_scaled :
  valid_input world_scaled 1%positive hdr_demo "" image_demo pam_demo (Corners 1 1 3 3)%Z.
Proof. check_valid_input. Defined.

Lemma linear_when_associative_witness :
  correct world_scaled 2%positive hdr_demo ""
  = outcome_map (scale 2) (correct world_scaled 1%positive hdr_demo "").
Proof.
  apply (proj2 (linear_when_associative world_scaled 1%positive 2%positive hdr_demo ""
                  image_demo pam_demo (Corners 1 1 3 3) 2%float
                  valid_in_world_scaled eq_refl)).
  repeat constructor; vm_compute; reflexivity.
Defined.

Lemma valid_one :
  valid_input world_one 1%positive hdr_one "" image_one pam_one (Corners 0 0 1 1)%Z.
Proof. check_valid_input. Qed.

(** C8, as stated, fails: on a valid input with the pixel 0.2, the map cell
    0.3 and k = 0.1, the call on [k * image] does not return [k] times what
    the call on the image returns. *)
Lemma linearity_fails :
  valid_input world_one 1%positive hdr_one "" image_one pam_one (Corners 0 0 1 1)%Z
  ∧ heap world_one !! 2%positive = Some (scale f0_1 image_one)
  ∧ correct world_one 2%positive hdr_one ""
    ≠ outcome_map (scale f0_1) (correct world_one 1%positive hdr_one "").
Proof.
  split; [exact valid_one |]. split; [reflexivity |].
  vm_compute. intros H. discriminate H.
Qed.

(** ** Purity *)

(** C9: a call changes no file of the disk and no array of the heap: every
    reference that held an array before the call (the input image, arrays
    loaded by earlier calls) holds the same array after it.  A returned
    reference is new.  A later call on any image of the heap computes what
    it would have computed had the first call not been made. *)
Theorem no_side_effects σ data scihdr pamdir r σ' :
  make_PAMcorr_image_UVIS data scihdr pamdir σ = (r, σ') ->
  disk σ' = disk σ
  ∧ (∀ l a, heap σ !! l = Some a -> heap σ' !! l = Some a)
  ∧ (∀ l, r = Done l -> heap σ !! l = None ∧ is_Some (heap σ' !! l))
  ∧ (∀ data2 scihdr2 pamdir2, is_Some (heap σ !! data2) ->
       correct σ' data2 scihdr2 pamdir2 = correct σ data2 scihdr2 pamdir2).
Proof.
  intros Hrun.
  assert (Hframe : disk σ' = disk σ ∧ heap σ ⊆ heap σ'
                   ∧ ∀ l, r = Done l -> heap σ !! l = None ∧ is_Some (heap σ' !! l)).
  { destruct (heap σ !! data) as [image |] eqn:Hdata.
    - destruct (make_PAMcorr_image_UVIS_computes σ data scihdr pamdir image Hdata)
        as (r0 & σ0 & Hrun0 & Hd & Hh & Hr).
      rewrite Hrun in Hrun0. injection Hrun0 as <- <-.
      split; [exact Hd |]. split; [exact Hh |].
      intros l ->. destruct (corrected image scihdr (disk σ) pamdir); [| contradiction].
      destruct Hr as [Hn Hs]. split; [exact Hn | eauto].
    - unfold make_PAMcorr_image_UVIS, np_copy, load, mbind, M_bind in Hrun.
      rewrite Hdata in Hrun. injection Hrun as <- <-.
      split; [reflexivity |]. split; [reflexivity |]. discriminate. }
  destruct Hframe as (Hd & Hh & Hfresh).
  split; [exact Hd |]. split.
  { intros l a Hl. eapply lookup_weaken; eassumption. }
  split; [exact Hfresh |].
  intros data2 scihdr2 pamdir2 [image2 H2].
  rewrite (correct_corrected σ' data2 scihdr2 pamdir2 image2).
  - rewrite (correct_corrected σ data2 scihdr2 pamdir2 image2 H2). rewrite Hd. reflexivity.
  - eapply lookup_weaken; eassumption.
Qed.

Lemma no_side_effects_witness :
  ∃ r σ', make_PAMcorr_image_UVIS 1%positive hdr_demo "" world_two = (r, σ')
    ∧ disk σ' = disk world_two
    ∧ heap σ' !! 1%positive = Some image_demo
    ∧ correct σ' 2%positive hdr_demo ""
      = Done (NdArray 2 2 [[2; 4]; [6; 8]]%float).
Proof.
  destruct (make_PAMcorr_image_UVIS 1%positive hdr_demo "" world_two) as [r σ'] eqn:Hrun.
  exists r, σ'. split; [reflexivity |].
  destruct (no_side_effects world_two 1%positive hdr_demo "" r σ' Hrun)
    as (Hd & Hh & _ & Hnext).
  split; [exact Hd |]. split.
  - apply Hh. reflexivity.
  - rewrite Hnext.
    + vm_compute. reflexivity.
    + exists image_other. reflexivity.
Defined.

(** ** Determinism *)

(** C10: two calls on equal image data, on headers that agree on LTV1, LTV2,
    NAXIS1, NAXIS2 and CCDCHIP and on disks that agree on the selected file
    return equal arrays or raise the same exception, whatever else the
    headers, the heaps and the disks hold. *)
Theorem deterministic σ1 σ2 data1 data2 (scihdr1 scihdr2 : header) pamdir image :
  heap σ1 !! data1 = Some image ->
  heap σ2 !! data2 = Some image ->
  (∀ k, k ∈ geometry_keys -> scihdr1 !! k = scihdr2 !! k) ->
  (∀ p, selected_path scihdr1 pamdir = Some p -> disk σ1 !! p = disk σ2 !! p) ->
  correct σ1 data1 scihdr1 pamdir = correct σ2 data2 scihdr2 pamdir.
Proof.
  intros H1 H2 Hkeys Hfile.
  rewrite (correct_corrected σ1 data1 scihdr1 pamdir image H1).
  rewrite (correct_corrected σ2 data2 scihdr2 pamdir image H2).
  f_equal.
  assert (Hget : ∀ k, k ∈ geometry_keys -> getitem scihdr1 k = getitem scihdr2 k).
  { intros k Hk. unfold getitem. rewrite (Hkeys k Hk). reflexivity. }
  assert (Hc : subarray_corners scihdr1 = subarray_corners scihdr2).
  { unfold subarray_corners, int_abs_of, int_sum_of.
    rewrite !(Hget "LTV1"), !(Hget "LTV2") by (unfold geometry_keys; set_solver).
    destruct (res_bind (getitem scihdr2 "LTV1") _) as [vx0 | e]; [| reflexivity].
    simpl.
    destruct (res_bind (getitem scihdr2 "LTV2") _) as [vy0 | e]; [| reflexivity].
    simpl.
    rewrite !(Hget "NAXIS1"), !(Hget "NAXIS2") by (unfold geometry_keys; set_solver).
    reflexivity. }
  unfold selected_path in Hfile. unfold corrected.
  rewrite <- Hc.
  rewrite <- (Hget "CCDCHIP") by (unfold geometry_keys; set_solver).
  destruct (subarray_corners scihdr1) as [c | e]; [| reflexivity]. simpl.
  destruct (getitem scihdr1 "CCDCHIP") as [chip | e]; [| reflexivity]. simpl in *.
  destruct (pam_file chip) as [name | e]; [| reflexivity]. simpl.
  unfold read_file. rewrite (Hfile _ eq_refl). reflexivity.
Qed.

Lemma deterministic_witness :
  correct world_demo 1%positive hdr_demo "" = correct world_alt 5%positive hdr_extra "".
Proof.
  apply (deterministic world_demo world_alt 1%positive 5%positive hdr_demo hdr_extra ""
           image_demo eq_refl eq_refl).
  - intros k Hk. unfold geometry_keys in Hk.
    repeat (apply elem_of_cons in Hk as [-> | Hk]; [reflexivity |]).
    by apply elem_of_nil in Hk.
  - intros p Hp.
    change (Some "UVIS1wfc3_map.fits" = Some p) in Hp.
    injection Hp as <-. reflexivity.
Defined.

(** * The rest of the notebook *)

(** ** Cell by cell *)

(** X1: for a float64 image and a float64 map, as arrays are modelled
    here, on a valid input the pixel at row [r] and column [k] of the
    result is the pixel of the image there times the cell of the map at row
    [y0 + r] and column [x0 + k]; the result has no other pixel. *)
Theorem corrected_pixel σ data scihdr pamdir image pam c r k :
  valid_input σ data scihdr pamdir image pam c ->
  ∃ out, correct σ data scihdr pamdir = Done out
    ∧ match cell image r k with
      | Some x =>
          ∃ p, cell pam (Z.to_nat (y0 c) + r) (Z.to_nat (x0 c) + k) = Some p
               ∧ cell out r k = Some (x * p)%float
      | None => cell out r k = None
      end.
Proof.
  intros Hv.
  destruct (correct_valid _ _ _ _ _ _ _ Hv) as (Hreg & Hr & Hk & ->).
  eexists. split; [reflexivity |].
  rewrite (result_cell _ _ _ _ _ _ _ r k Hv).
  destruct (cell image r k) as [x |] eqn:Hx; [| reflexivity]. cbn.
  destruct Hv as [_ Hwf Hc Hn1 Hn2 _ Hpwf [Hx0 Hx1] [Hy0 Hy1]].
  destruct (corners_naxis _ _ _ _ Hc Hn1 Hn2) as [Ex Ey].
  destruct (cell_Some _ _ _ _ Hwf Hx) as [Hlr Hlk].
  destruct (cell_is_Some pam (Z.to_nat (y0 c) + r) (Z.to_nat (x0 c) + k) Hpwf)
    as [p Hp]; [lia | lia |].
  exists p. rewrite Hp. split; reflexivity.
Qed.

Lemma corrected_pixel_witness :
  ∃ out, correct world_demo 1%positive hdr_demo "" = Done out
         ∧ cell out 1 0 = Some 60%float.
Proof.
  destruct (corrected_pixel _ _ _ _ _ _ _ 1 0 valid_demo) as (out & Hrun & Hcell).
  exists out. split; [exact Hrun |].
  cbn in Hcell. destruct Hcell as (p & [= <-] & ->). reflexivity.
Defined.

(** ** When a call returns *)

Lemma multiply_Ok a b :
  (∃ out, multiply a b = Ok out)
  ↔ ¬ mismatch (nrows a) (nrows b) ∧ ¬ mismatch (ncols a) (ncols b).
Proof.
  rewrite <- !bcast_dim_None. unfold multiply.
  destruct (bcast_dim (nrows a) (nrows b)) as [h |],
           (bcast_dim (ncols a) (ncols b)) as [w |].
  - split; [intros _; split; discriminate | intros _; eauto].
  - split; [intros [out Hout]; discriminate | intros [_ Hw]; congruence].
  - split; [intros [out Hout]; discriminate | intros [Hh _]; congruence].
  - split; [intros [out Hout]; discriminate | intros [Hh _]; congruence].
Qed.

(** X2: a call on an image of the heap returns an array exactly when the
    corners can be computed, CCDCHIP selects a file that is on the disk,
    and on each axis the image and the region of the map have the same
    length or one of them has length 1; in every other case it raises an
    exception. *)
Theorem returns_iff σ data scihdr pamdir image :
  heap σ !! data = Some image ->
  let returns := ∃ c p pam,
      subarray_corners scihdr = Ok c
      ∧ selected_path scihdr pamdir = Some p ∧ disk σ !! p = Some pam
      ∧ ¬ mismatch (nrows image) (nrows (region_of pam c))
      ∧ ¬ mismatch (ncols image) (ncols (region_of pam c)) in
  ((∃ out, correct σ data scihdr pamdir = Done out) ↔ returns)
  ∧ (¬ returns -> ∃ e, correct σ data scihdr pamdir = Raised e).
Proof.
  intros Hdata returns.
  assert (Hiff : (∃ out, correct σ data scihdr pamdir = Done out) ↔ returns).
  { split.
    - intros [out Hout].
      rewrite (correct_corrected _ _ _ _ image Hdata) in Hout.
      unfold returns, corrected, selected_path in *.
      destruct (subarray_corners scihdr) as [c |]; [| discriminate].
      destruct (getitem scihdr "CCDCHIP") as [chip |]; [| discriminate].
      cbn [res_bind] in *.
      destruct (pam_file chip) as [name |]; [| discriminate].
      cbn [res_bind] in Hout. unfold read_file in Hout.
      destruct (disk σ !! (pamdir +:+ name)) as [pam |] eqn:Hfile; [| discriminate].
      cbn [res_bind] in Hout.
      exists c, (pamdir +:+ name), pam.
      split; [reflexivity |]. split; [reflexivity |]. split; [exact Hfile |].
      apply multiply_Ok.
      destruct (multiply image (region_of pam c)) as [o |]; [eauto | discriminate].
    - intros (c & p & pam & Hc & Hp & Hfile & Hrows & Hcols).
      rewrite (correct_selected _ _ _ _ image c p pam Hdata Hc Hp Hfile).
      destruct (proj2 (multiply_Ok image (region_of pam c)) (conj Hrows Hcols))
        as [out ->].
      exists out. reflexivity. }
  split; [exact Hiff |].
  intros Hnot.
  destruct (correct σ data scihdr pamdir) as [out | e |] eqn:Hrun.
  - destruct Hnot. apply Hiff. eauto.
  - eauto.
  - rewrite (correct_corrected _ _ _ _ image Hdata) in Hrun.
    destruct (corrected image scihdr (disk σ) pamdir); discriminate.
Qed.

Lemma returns_iff_witness :
  (∃ out, correct world_wide 1%positive hdr_wide "" = Done out)
  ∧ (∃ e, correct world_demo 1%positive hdr_chip3 "" = Raised e).
Proof.
  split.
  - apply (proj2 (proj1 (returns_iff world_wide 1%positive hdr_wide "" image_wide
                           eq_refl))).
    exists (Corners 0 0 2 1), "UVIS1wfc3_map.fits", pam_small.
    split; [reflexivity |]. split; [reflexivity |]. split; [reflexivity |].
    split; intros (H1 & H2 & H3); [by apply H1 | by apply H3].
  - apply (proj2 (returns_iff world_demo 1%positive hdr_chip3 "" image_demo eq_refl)).
    intros (c & p & pam & _ & Hp & _). discriminate Hp.
Defined.

(** ** The function and the cells it puts together *)

(** X3: on an image of the heap, the function called with [pamdir = ''] and
    the corners cell followed by the chip cell return equal arrays or raise
    the same exception. *)
Theorem function_is_the_cells σ data scihdr image :
  heap σ !! data = Some image ->
  returned (step_by_step data scihdr σ) = correct σ data scihdr "".
Proof.
  intros Hdata.
  rewrite (correct_corrected _ _ _ _ image Hdata).
  assert (Hrun : computes (step_by_step data scihdr) σ (corrected image scihdr (disk σ) "")).
  { unfold step_by_step, corrected, computes. rewrite bind_lift.
    destruct (subarray_corners scihdr) as [c | e]; cbn [res_bind];
      [| apply computes_raise].
    unfold pam_cell. rewrite bind_lift.
    destruct (getitem scihdr "CCDCHIP") as [chip | e]; cbn [res_bind];
      [| apply computes_raise].
    unfold pam_file.
    destruct (py_eq chip 1) eqn:H1; cbn [res_bind].
    - apply (branch_computes σ data image "UVIS1wfc3_map.fits" c Hdata).
    - rewrite (bind_done _ _ σ chip σ) by reflexivity.
      destruct (py_eq chip 2) eqn:H2; cbn [res_bind].
      + apply (branch_computes σ data image "UVIS2wfc3_map.fits" c Hdata).
      + apply computes_raise. }
  destruct Hrun as (r & σ' & -> & _ & _ & Hr).
  unfold returned.
  destruct r as [l | e |], (corrected image scihdr (disk σ) "") as [a | e'];
    try contradiction; cbn.
  - destruct Hr as [_ ->]. reflexivity.
  - by subst.
Qed.

Lemma function_is_the_cells_witness :
  returned (step_by_step 1%positive hdr_demo world_demo)
  = Done (NdArray 2 2 [[20; 40]; [60; 80]]%float).
Proof.
  rewrite (function_is_the_cells world_demo 1%positive hdr_demo image_demo eq_refl).
  vm_compute. reflexivity.
Defined.

(** ** Full frames and the subarrays cut out of them *)

Lemma sub_list_all {A : Type} (l : list A) : sub_list 0 (length l) l = l.
Proof. unfold sub_list. rewrite Nat.sub_0_r, drop_0. by apply take_ge. Qed.

Lemma region_full_frame pam :
  wf_ndarray pam -> region_of pam (full_frame pam) = pam.
Proof.
  intros [Hrows Hcols]. unfold region_of, full_frame, window_of, window_array.
  cbn [x0 y0 x1 y1 row_lo row_hi col_lo col_hi].
  rewrite !slice_index_inside by lia.
  rewrite !Nat2Z.id. change (Z.to_nat 0) with 0. rewrite !Nat.sub_0_r.
  destruct pam as [h w rs]. cbn [nrows ncols rows] in *. f_equal.
  subst h. rewrite sub_list_all.
  induction Hcols as [| r rs Hr _ IH]; [reflexivity |].
  cbn. rewrite IH. f_equal. subst w. apply sub_list_all.
Qed.

Lemma zip_sub_list {A : Type} (f : A -> A -> A) lo hi (l k : list A) :
  zip_with f (sub_list lo hi l) (sub_list lo hi k) = sub_list lo hi (zip_with f l k).
Proof. unfold sub_list. by rewrite <- zip_with_take, <- zip_with_drop. Qed.

Lemma zip_rows_sub_list (f : float -> float -> float) lo hi (l k : list (list float)) :
  zip_with (zip_with f) (sub_list lo hi <$> l) (sub_list lo hi <$> k)
  = sub_list lo hi <$> zip_with (zip_with f) l k.
Proof.
  revert k. induction l as [| r l IH]; intros [| p k]; try reflexivity.
  cbn. rewrite IH, zip_sub_list. reflexivity.
Qed.

Lemma full_frame_shape_and_result σ data scihdr pamdir image pam :
  valid_input σ data scihdr pamdir image pam (full_frame pam) ->
  nrows image = nrows pam ∧ ncols image = ncols pam
  ∧ correct σ data scihdr pamdir
    = Done (NdArray (nrows pam) (ncols pam)
              (zip_with (zip_with PrimFloat.mul) (rows image) (rows pam))).
Proof.
  intros Hv.
  destruct (correct_valid _ _ _ _ _ _ _ Hv) as (_ & Hr & Hk & ->).
  destruct Hv as [_ _ _ _ _ _ Hpwf _ _].
  rewrite (region_full_frame pam Hpwf) in *.
  rewrite Hr, Hk. done.
Qed.

(** X4: a full-frame image (origin 0, the extent of the map) is multiplied
    by the whole map, cell by cell. *)
Theorem full_frame_uses_whole_map σ data scihdr pamdir image pam :
  valid_input σ data scihdr pamdir image pam (full_frame pam) ->
  nrows image = nrows pam ∧ ncols image = ncols pam
  ∧ correct σ data scihdr pamdir
    = Done (NdArray (nrows pam) (ncols pam)
              (zip_with (zip_with PrimFloat.mul) (rows image) (rows pam))).
Proof. apply full_frame_shape_and_result. Qed.

(** X5: multiplying a subarray cut out of a full-frame image gives the same
    subarray cut out of the multiplied full-frame image. *)
Theorem subarray_of_corrected_frame σ dF dS hF hS pamdir F pam c :
  valid_input σ dF hF pamdir F pam (full_frame pam) ->
  valid_input σ dS hS pamdir (region_of F c) pam c ->
  correct σ dS hS pamdir
  = outcome_map (λ out, region_of out c) (correct σ dF hF pamdir).
Proof.
  intros HF HS.
  destruct (full_frame_shape_and_result σ dF hF pamdir F pam HF) as (Hr & Hk & ->).
  destruct (correct_valid _ _ _ _ _ _ _ HS) as (_ & _ & _ & ->).
  cbn [outcome_map]. f_equal.
  unfold region_of, window_of, window_array.
  cbn [nrows ncols rows row_lo row_hi col_lo col_hi].
  rewrite Hr, Hk. f_equal.
  rewrite zip_rows_sub_list, zip_sub_list. reflexivity.
Qed.

Lemma valid_frame :
  valid_input world_frame 1%positive hdr_frame "" image_frame pam_demo
    (full_frame pam_demo).
Proof. check_valid_input. Defined.

Lemma valid_cut :
  valid_input world_frame 2%positive hdr_demo ""
    (region_of image_frame (Corners 1 1 3 3)) pam_demo (Corners 1 1 3 3).
Proof. check_valid_input. Defined.

Lemma full_frame_uses_whole_map_witness :
  correct world_frame 1%positive hdr_frame ""
  = Done (NdArray 4 4 (zip_with (zip_with PrimFloat.mul)
                         (rows image_frame) (rows pam_demo))).
Proof. exact (proj2 (proj2 (full_frame_uses_whole_map _ _ _ _ _ _ valid_frame))). Defined.

Lemma subarray_of_corrected_frame_witness :
  correct world_frame 2%positive hdr_demo ""
  = outcome_map (λ out, region_of out (Corners 1 1 3 3))
      (correct world_frame 1%positive hdr_frame "").
Proof. exact (subarray_of_corrected_frame _ _ _ _ _ _ _ _ _ valid_frame valid_cut). Defined.

Example cut_of_frame :
  correct world_frame 2%positive hdr_demo ""
  = Done (NdArray 2 2 [[12; 14]; [20; 22]]%float).
Proof. vm_compute. reflexivity. Qed.

(** ** Pixels that are not numbers *)

Lemma mul_nan_l (p : float) : (nan * p)%float = nan.
Proof. apply Prim2SF_inj. rewrite mul_spec. reflexivity. Qed.

Lemma mul_nan_r (x : float) : (x * nan)%float = nan.
Proof.
  apply Prim2SF_inj. rewrite mul_spec.
  change (Prim2SF nan) with S754_nan. by destruct (Prim2SF x).
Qed.

(** X6: on a valid input, a NaN pixel of the image is a NaN pixel of the
    result, and so is every pixel under a NaN cell of the map. *)
Theorem nan_propagates σ data scihdr pamdir image pam c r k :
  valid_input σ data scihdr pamdir image pam c ->
  ∃ out, correct σ data scihdr pamdir = Done out
    ∧ (cell image r k = Some nan -> cell out r k = Some nan)
    ∧ (is_Some (cell image r k) ->
       cell pam (Z.to_nat (y0 c) + r) (Z.to_nat (x0 c) + k) = Some nan ->
       cell out r k = Some nan).
Proof.
  intros Hv.
  destruct (correct_valid _ _ _ _ _ _ _ Hv) as (Hreg & Hr & Hk & ->).
  eexists. split; [reflexivity |].
  rewrite (result_cell _ _ _ _ _ _ _ r k Hv). split.
  - intros Hx.
    assert (Himg := Hx).
    destruct Hv as [_ Hwf Hc Hn1 Hn2 _ Hpwf [Hx0 Hx1] [Hy0 Hy1]].
    destruct (corners_naxis _ _ _ _ Hc Hn1 Hn2) as [Ex Ey].
    destruct (cell_Some _ _ _ _ Hwf Himg) as [Hlr Hlk].
    destruct (cell_is_Some pam (Z.to_nat (y0 c) + r) (Z.to_nat (x0 c) + k) Hpwf)
      as [p Hp]; [lia | lia |].
    rewrite Hx, Hp. cbn. by rewrite mul_nan_l.
  - intros [x Hx] Hp. rewrite Hx, Hp. cbn. by rewrite mul_nan_r.
Qed.

Lemma valid_nan :
  valid_input world_nan 1%positive hdr_demo "" image_nan pam_demo (Corners 1 1 3 3).
Proof. check_valid_input. Defined.

Lemma nan_propagates_witness :
  ∃ out, correct world_nan 1%positive hdr_demo "" = Done out
         ∧ cell out 0 0 = Some nan.
Proof.
  destruct (nan_propagates _ _ _ _ _ _ _ 0 0 valid_nan) as (out & Hrun & Hnan & _).
  exists out. split; [exact Hrun | by apply Hnan].
Defined.

(** ** The origin *)

Lemma correct_dangling σ data scihdr pamdir :
  heap σ !! data = None -> correct σ data scihdr pamdir = Stuck.
Proof.
  intros Hdata.
  unfold correct, make_PAMcorr_image_UVIS, np_copy, load, mbind, M_bind.
  rewrite Hdata. reflexivity.
Qed.

Lemma abs_opp (f : float) : abs (- f) = abs f.
Proof.
  apply Prim2SF_inj. rewrite !abs_spec, opp_spec. by destruct (Prim2SF f).
Qed.

(** X7: the sign of a real LTV1 or LTV2 is ignored: the header with the
    keyword negated gives the same corners and the same result. *)
Theorem sign_of_offset_ignored σ data (scihdr : header) pamdir key f :
  key = "LTV1" ∨ key = "LTV2" ->
  subarray_corners (<[key := HFloat (- f)]> scihdr)
  = subarray_corners (<[key := HFloat f]> scihdr)
  ∧ correct σ data (<[key := HFloat (- f)]> scihdr) pamdir
    = correct σ data (<[key := HFloat f]> scihdr) pamdir.
Proof.
  intros Hkey.
  assert (Habs : ∀ k, int_abs_of (<[key := HFloat (- f)]> scihdr) k
                      = int_abs_of (<[key := HFloat f]> scihdr) k).
  { intros k. unfold int_abs_of, getitem.
    destruct (decide (key = k)) as [-> | Hne].
    - rewrite !lookup_insert_eq. cbn. by rewrite abs_opp.
    - by rewrite !lookup_insert_ne. }
  assert (Hget : ∀ k, k ≠ key ->
            getitem (<[key := HFloat (- f)]> scihdr) k
            = getitem (<[key := HFloat f]> scihdr) k).
  { intros k Hne. unfold getitem. by rewrite !lookup_insert_ne. }
  assert (Hc : subarray_corners (<[key := HFloat (- f)]> scihdr)
               = subarray_corners (<[key := HFloat f]> scihdr)).
  { unfold subarray_corners, int_sum_of. rewrite !Habs.
    rewrite (Hget "NAXIS1"), (Hget "NAXIS2") by (destruct Hkey; by subst).
    reflexivity. }
  split; [exact Hc |].
  destruct (heap σ !! data) as [image |] eqn:Hdata.
  - rewrite !(correct_corrected _ _ _ _ image Hdata). unfold corrected.
    rewrite Hc, (Hget "CCDCHIP") by (destruct Hkey; by subst). reflexivity.
  - by rewrite !correct_dangling.
Qed.

Lemma sign_of_offset_ignored_witness :
  correct world_demo 1%positive (<["LTV1" := HFloat (- (-1))%float]> hdr_demo) ""
  = correct world_demo 1%positive (<["LTV1" := HFloat (-1)%float]> hdr_demo) "".
Proof.
  exact (proj2 (sign_of_offset_ignored world_demo 1%positive hdr_demo "" "LTV1"
                  (-1)%float (or_introl eq_refl))).
Defined.

(** X8: the origin is never negative, so the lower bounds of the slice never
    count from the end of the map; the one exception is an LTV that holds
    the least 64-bit integer, whose absolute value wraps around. *)
Theorem corners_nonneg (scihdr : header) c :
  subarray_corners scihdr = Ok c ->
  scihdr !! "LTV1" ≠ Some (HInt int64_min) ->
  scihdr !! "LTV2" ≠ Some (HInt int64_min) ->
  (0 ≤ x0 c)%Z ∧ (0 ≤ y0 c)%Z
  ∧ ∀ pam : ndarray,
      slice_index (ncols pam) (x0 c) = Z.to_nat (x0 c) `min` ncols pam
      ∧ slice_index (nrows pam) (y0 c) = Z.to_nat (y0 c) `min` nrows pam.
Proof.
  intros Hc H1 H2. unfold subarray_corners in Hc.
  destruct (int_abs_of scihdr "LTV1") as [vx0 |] eqn:Ex; [| discriminate].
  destruct (int_abs_of scihdr "LTV2") as [vy0 |] eqn:Ey; [| discriminate].
  cbn [res_bind] in Hc.
  destruct (int_sum_of vx0 scihdr "NAXIS1") as [vx1 |]; [| discriminate].
  destruct (int_sum_of vy0 scihdr "NAXIS2") as [vy1 |]; [| discriminate].
  injection Hc as <-. cbn [x0 y0].
  assert (Hx := origin_nonneg _ _ _ Ex H1).
  assert (Hy := origin_nonneg _ _ _ Ey H2).
  split; [exact Hx |]. split; [exact Hy |].
  intros pam. unfold slice_index.
  destruct (vx0 <? 0)%Z eqn:E1; destruct (vy0 <? 0)%Z eqn:E2; lia.
Qed.

Lemma corners_nonneg_witness :
  (0 ≤ x0 (Corners 1537 25 1539 27))%Z ∧ (0 ≤ y0 (Corners 1537 25 1539 27))%Z.
Proof.
  destruct (corners_nonneg hdr_real (Corners 1537 25 1539 27)) as (Hx & Hy & _).
  - vm_compute. reflexivity.
  - discriminate.
  - discriminate.
  - split; [exact Hx | exact Hy].
Defined.

Lemma Prim2SF_nan_inv (f : float) : Prim2SF f = S754_nan -> f = nan.
Proof. intros H. apply Prim2SF_inj. rewrite H. reflexivity. Qed.

Lemma float_to_int_abs (f : float) :
  float_to_int (abs f)
  = match Prim2SF f with
    | S754_zero _ => Ok 0%Z
    | S754_infinity _ => Err OverflowError
    | S754_nan => Err (ValueError "cannot convert float NaN to integer")
    | S754_finite _ m e => Ok (Z.shiftl (Z.pos m) e)
    end.
Proof. unfold float_to_int. rewrite abs_spec. by destruct (Prim2SF f). Qed.

(** X9: the origin is computed from a keyword exactly when the keyword is
    present and holds an integer, a boolean or a real that is a number.  A
    missing keyword raises KeyError, a string TypeError, a NaN ValueError and
    an infinity OverflowError; for LTV1 the call raises that exception
    whatever the rest of the header and the disk hold. *)
Theorem origin_errors (scihdr : header) key :
  (scihdr !! key = None -> int_abs_of scihdr key = Err (KeyError key))
  ∧ (∀ s, scihdr !! key = Some (HStr s) -> int_abs_of scihdr key = Err TypeError)
  ∧ (scihdr !! key = Some (HFloat nan) ->
     int_abs_of scihdr key = Err (ValueError "cannot convert float NaN to integer"))
  ∧ (∀ f, scihdr !! key = Some (HFloat f) -> finite f = false -> f ≠ nan ->
     int_abs_of scihdr key = Err OverflowError)
  ∧ (∀ v, scihdr !! key = Some v ->
     numeric v ↔ ∃ z, int_abs_of scihdr key = Ok z)
  ∧ (∀ σ data image pamdir e,
     key = "LTV1" -> heap σ !! data = Some image ->
     int_abs_of scihdr key = Err e ->
     correct σ data scihdr pamdir = Raised e).
Proof.
  split; [| split; [| split; [| split; [| split]]]].
  - unfold int_abs_of, getitem. intros ->. reflexivity.
  - unfold int_abs_of, getitem. intros s ->. reflexivity.
  - unfold int_abs_of, getitem. intros ->. reflexivity.
  - unfold int_abs_of, getitem. intros f -> Hfin Hnan. cbn [res_bind np_abs py_int].
    rewrite float_to_int_abs. unfold finite in Hfin.
    destruct (Prim2SF f) eqn:E; try discriminate; [reflexivity |].
    by apply Prim2SF_nan_inv in E.
  - unfold int_abs_of, getitem. intros v ->. cbn [res_bind].
    destruct v as [z | f | s | b]; cbn [numeric np_abs res_bind py_int].
    + split; [eauto | done].
    + rewrite float_to_int_abs. unfold finite.
      destruct (Prim2SF f); split; intros H; try done; eauto.
      all: by destruct H.
    + split; [done | by intros [z Hz]].
    + split; [eauto | done].
  - intros σ data image pamdir e -> Hdata Herr.
    rewrite (correct_corrected _ _ _ _ image Hdata).
    unfold corrected, subarray_corners. rewrite Herr. reflexivity.
Qed.

(** ** The directory of the maps *)

Lemma pam_file_names chip name :
  pam_file chip = Ok name ->
  name = "UVIS1wfc3_map.fits" ∨ name = "UVIS2wfc3_map.fits".
Proof.
  unfold pam_file. destruct (py_eq chip 1); [intros [= <-]; by left |].
  destruct (py_eq chip 2); [intros [= <-]; by right | discriminate].
Qed.

(** X10: [pamdir] is put in front of the file name as it is, with no
    separator: when the maps are stored inside a directory and [pamdir]
    names that directory without the final "/", the call raises
    FileNotFoundError for the path made of the directory name followed
    directly by the file name. *)
Theorem pamdir_is_a_prefix σ data scihdr dir image c chip name :
  heap σ !! data = Some image ->
  subarray_corners scihdr = Ok c ->
  scihdr !! "CCDCHIP" = Some chip -> pam_file chip = Ok name ->
  (∀ p, is_Some (disk σ !! p) -> ∃ n, p = dir +:+ "/" +:+ n) ->
  correct σ data scihdr dir = Raised (FileNotFoundError (dir +:+ name)).
Proof.
  intros Hdata Hc Hchip Hname Hdisk.
  rewrite (correct_corrected _ _ _ _ image Hdata).
  rewrite (corrected_chip _ _ _ _ c chip Hc Hchip), Hname. cbn [res_bind].
  unfold read_file.
  destruct (disk σ !! (dir +:+ name)) as [pam |] eqn:Hfile; [| reflexivity].
  destruct (Hdisk (dir +:+ name)) as [n Hn]; [by rewrite Hfile |].
  apply (inj (String.app dir)) in Hn.
  destruct (pam_file_names _ _ Hname) as [-> | ->]; discriminate.
Qed.

Lemma pamdir_is_a_prefix_witness :
  correct world_dir 1%positive hdr_demo "pam"
  = Raised (FileNotFoundError "pamUVIS1wfc3_map.fits").
Proof.
  apply (pamdir_is_a_prefix world_dir 1%positive hdr_demo "pam" image_demo
           (Corners 1 1 3 3) (HInt 1) "UVIS1wfc3_map.fits" eq_refl);
    [vm_compute; reflexivity | reflexivity | reflexivity |].
  intros p [a Hp]. unfold world_dir in Hp. cbn [disk] in Hp.
  apply lookup_insert_Some in Hp as [[<- _] | [_ Hp]];
    [by exists "UVIS1wfc3_map.fits" |].
  apply lookup_singleton_Some in Hp as [<- _].
  by exists "UVIS2wfc3_map.fits".
Defined.

Example pamdir_with_separator :
  correct world_dir 1%positive hdr_demo "pam/"
  = Done (NdArray 2 2 [[20; 40]; [60; 80]]%float).
Proof. vm_compute. reflexivity. Qed.

(** ** The difference image *)

(** A number minus itself is +0; a NaN or an infinity minus itself is a
    NaN. *)
Lemma sub_diag (x : float) : (x - x)%float = if finite x then 0%float else nan.
Proof.
  apply Prim2SF_inj. rewrite sub_spec. unfold finite.
  destruct (Prim2SF x) as [s | s | | s m e]; unfold SF64sub, SFsub.
  - by destruct s.
  - by destruct s.
  - reflexivity.
  - rewrite Z.min_id. unfold shl_align. rewrite !Z.sub_diag. reflexivity.
Qed.

Lemma subtract_same_shape a b :
  wf_ndarray a -> wf_ndarray b -> nrows b = nrows a -> ncols b = ncols a ->
  subtract a b
  = Ok (NdArray (nrows a) (ncols a)
                (zip_with (zip_with PrimFloat.sub) (rows a) (rows b))).
Proof.
  intros Ha Hb Hr Hc. unfold subtract. rewrite Hr, Hc, !bcast_dim_same.
  rewrite (bcast_rows_id a Ha).
  rewrite <- Hr, <- Hc, (bcast_rows_id b Hb). reflexivity.
Qed.

Lemma lookup_zip_rows (f : float -> float -> float) (l q : list (list float)) r k :
  zip_with (zip_with f) l q !! r ≫= (.!! k)
  = x ← l !! r ≫= (.!! k); p ← q !! r ≫= (.!! k); Some (f x p).
Proof.
  rewrite lookup_zip_with.
  destruct (l !! r) as [lr |]; [| reflexivity]. cbn.
  destruct (q !! r) as [qr |]; cbn.
  - rewrite lookup_zip_with. reflexivity.
  - destruct (lr !! k); reflexivity.
Qed.

Lemma of_res_Done {A : Type} (r : res A) a : of_res r = Done a -> r = Ok a.
Proof. destruct r; cbn; congruence. Qed.

Lemma zip_array_wf (f : float -> float -> float) a b :
  wf_ndarray a -> wf_ndarray b -> nrows b = nrows a -> ncols b = ncols a ->
  wf_ndarray (NdArray (nrows a) (ncols a) (zip_with (zip_with f) (rows a) (rows b))).
Proof.
  intros [Hal Hac] [Hbl Hbc] Hr Hc. split; cbn [rows nrows ncols].
  - rewrite length_zip_with. lia.
  - apply zip_rows_wf; [exact Hac | rewrite <- Hc; exact Hbc].
Qed.

(** The arrays the difference cell reads and the array it returns. *)
Lemma diff_cell_returns σ data scihdr pamdir image :
  heap σ !! data = Some image ->
  returned (diff_cell data scihdr pamdir σ)
  = of_res (res_bind (corrected image scihdr (disk σ) pamdir)
                     (λ out, subtract out image)).
Proof.
  intros Hdata.
  destruct (make_PAMcorr_image_UVIS_computes σ data scihdr pamdir image Hdata)
    as (r & σ' & Hrun & _ & Hsub & Hr).
  unfold diff_cell.
  destruct r as [l | e |], (corrected image scihdr (disk σ) pamdir) as [out | e'];
    try contradiction.
  - destruct Hr as [_ Hout].
    rewrite (bind_done _ _ σ l σ' Hrun). unfold np_subtract, deref.
    rewrite (bind_done _ _ σ' out σ') by (by apply load_some).
    rewrite (bind_done _ _ σ' image σ')
      by (apply load_some; eapply lookup_weaken; eassumption).
    rewrite bind_lift. cbn [res_bind of_res].
    destruct (subtract out image) as [d | e]; [| reflexivity].
    destruct (alloc_fresh d σ') as (l' & -> & _).
    cbn. rewrite lookup_insert_eq. reflexivity.
  - subst e'. rewrite (bind_raised _ _ σ e σ' Hrun). reflexivity.
Qed.

(** X11: on a valid input the difference image has the shape of the image
    and holds, for the pixel [x] and the map cell [p] under it, [x * p - x];
    under a map cell 1.0 that is +0 when the pixel is a number and a NaN
    when it is not. *)
Theorem difference_image σ data scihdr pamdir image pam c :
  valid_input σ data scihdr pamdir image pam c ->
  ∃ diff, returned (diff_cell data scihdr pamdir σ) = Done diff
    ∧ nrows diff = nrows image ∧ ncols diff = ncols image
    ∧ ∀ r k x p,
        cell image r k = Some x ->
        cell pam (Z.to_nat (y0 c) + r) (Z.to_nat (x0 c) + k) = Some p ->
        cell diff r k = Some (x * p - x)%float
        ∧ (p = 1%float ->
           cell diff r k = Some (if finite x then 0%float else nan)).
Proof.
  intros Hv.
  assert (Himage := vi_image _ _ _ _ _ _ _ Hv).
  assert (Hwf := vi_image_wf _ _ _ _ _ _ _ Hv).
  rewrite (diff_cell_returns _ _ _ _ image Himage).
  destruct (correct_valid _ _ _ _ _ _ _ Hv) as ([Hrl Hrc] & Hr & Hk & Hrun).
  rewrite (correct_corrected _ _ _ _ image Himage) in Hrun.
  apply of_res_Done in Hrun. rewrite Hrun. unfold res_bind.
  set (prod := zip_with (zip_with PrimFloat.mul) (rows image) (rows (region_of pam c))).
  assert (Hsub : subtract (NdArray (nrows image) (ncols image) prod) image
                 = Ok (NdArray (nrows image) (ncols image)
                         (zip_with (zip_with PrimFloat.sub) prod (rows image)))).
  { apply (subtract_same_shape (NdArray (nrows image) (ncols image) prod) image);
      [| exact Hwf | reflexivity | reflexivity].
    exact (zip_array_wf _ image (region_of pam c) Hwf (conj Hrl Hrc) Hr Hk). }
  rewrite Hsub. subst prod.
  eexists. split; [reflexivity |]. cbn [nrows ncols].
  split; [reflexivity |]. split; [reflexivity |].
  intros r k x p Hx Hp.
  assert (Hcell : cell (NdArray (nrows image) (ncols image)
                          (zip_with (zip_with PrimFloat.sub)
                             (zip_with (zip_with PrimFloat.mul) (rows image)
                                (rows (region_of pam c)))
                             (rows image))) r k
                  = Some (x * p - x)%float).
  { unfold cell at 1. cbn [rows]. rewrite lookup_zip_rows.
    change (zip_with (zip_with PrimFloat.mul) (rows image) (rows (region_of pam c))
              !! r ≫= (.!! k))
      with (cell (NdArray (nrows image) (ncols image)
                    (zip_with (zip_with PrimFloat.mul) (rows image)
                       (rows (region_of pam c)))) r k).
    rewrite (result_cell _ _ _ _ _ _ _ r k Hv), Hx, Hp. cbn.
    unfold cell in Hx. rewrite Hx. reflexivity. }
  split; [exact Hcell |].
  intros ->. rewrite Hcell, mul_one_r, sub_diag. reflexivity.
Qed.

Lemma difference_image_witness :
  ∃ diff, returned (diff_cell 1%positive hdr_demo "" world_ones) = Done diff
          ∧ cell diff 1 1 = Some 0%float.
Proof.
  destruct (difference_image _ _ _ _ _ _ _ valid_ones)
    as (diff & Hrun & _ & _ & Hcells).
  exists diff. split; [exact Hrun |].
  destruct (Hcells 1 1 40%float 1%float eq_refl eq_refl) as [_ Hone].
  exact (Hone eq_refl).
Defined.

(** * The second notebook: file names *)

Example split_ex :
  Os.split "mastDownload/HST/idgga5m1q/idgga5m1q_flt.fits"
  = ["mastDownload"; "HST"; "idgga5m1q"; "idgga5m1q_flt.fits"]
  ∧ Os.split "a//b/" = ["a"; ""; "b"; ""] ∧ Os.split "" = [""].
Proof. vm_compute. auto. Qed.

Example basename_ex :
  Os.basename "mastDownload/HST/idgga5m1q/idgga5m1q_flt.fits" = "idgga5m1q_flt.fits"
  ∧ Os.basename "a/b/" = "" ∧ Os.basename "plain" = "plain".
Proof. vm_compute. auto. Qed.

Lemma app_cons a s t : String a s +:+ t = String a (s +:+ t).
Proof. reflexivity. Qed.

Lemma split_not_nil s : Os.split s ≠ [].
Proof.
  destruct s as [| a s]; cbn; [discriminate |].
  destruct (decide (a = "/"%char)); [discriminate |].
  destruct (Os.split s); discriminate.
Qed.

Lemma split_slash_free s : Os.slash_free s = true -> Os.split s = [s].
Proof.
  induction s as [| a s IH]; cbn; [reflexivity |].
  destruct (decide (a = "/"%char)); [discriminate |].
  intros H. rewrite (IH H). reflexivity.
Qed.

Lemma split_two s :
  Os.slash_free s = false -> ∃ h1 h2 t, Os.split s = h1 :: h2 :: t.
Proof.
  induction s as [| a s IH]; cbn; [discriminate |].
  destruct (decide (a = "/"%char)).
  - intros _. destruct (Os.split s) as [| h t] eqn:E; [by apply split_not_nil in E |].
    eauto.
  - intros H. destruct (IH H) as (h1 & h2 & t & ->). eauto.
Qed.

Lemma split_app s t :
  Os.split (s +:+ String "/" t) = Os.split s ++ Os.split t.
Proof.
  induction s as [| a s IH].
  - reflexivity.
  - rewrite app_cons. cbn. rewrite IH.
    destruct (decide (a = "/"%char)); [reflexivity |].
    destruct (Os.split s) as [| h k] eqn:E; [by apply split_not_nil in E |].
    reflexivity.
Qed.

Lemma last_item_app l k : k ≠ [] -> Os.last_item (l ++ k) = Os.last_item k.
Proof.
  intros Hk. unfold Os.last_item.
  destruct k as [| x k _] using rev_ind; [done |].
  by rewrite app_assoc, !last_snoc.
Qed.

Lemma last_item_cons x l : l ≠ [] -> Os.last_item (x :: l) = Os.last_item l.
Proof. intros Hl. apply (last_item_app [x] l Hl). Qed.

Lemma str_drop_0 s : Os.str_drop 0 s = s.
Proof. by destruct s. Qed.

(** What [rfind] returns: the index it was given when there is no "/", and
    otherwise the index after which the last piece of the split starts. *)
Lemma rfind_from_spec s i found :
  (found < i)%Z ->
  (Os.slash_free s = true ∧ Os.rfind_from s i found = found)
  ∨ (Os.slash_free s = false ∧ (i ≤ Os.rfind_from s i found)%Z
     ∧ Os.str_drop (Z.to_nat (Os.rfind_from s i found - i + 1)) s
       = Os.last_item (Os.split s)).
Proof.
  revert i found. induction s as [| a s IH]; intros i found Hlt; cbn.
  - left. done.
  - destruct (decide (a = "/"%char)) as [Ha | Ha].
    + right. split; [reflexivity |].
      destruct (IH (i + 1)%Z i) as [[Hfree Hr] | (Hfree & Hle & Hdrop)]; [lia | |].
      * rewrite Hr. split; [lia |].
        replace (Z.to_nat (i - i + 1)) with 1 by lia. cbn.
        rewrite ?str_drop_0, (split_slash_free s Hfree). reflexivity.
      * split; [lia |].
        replace (Z.to_nat (Os.rfind_from s (i + 1) i - i + 1))
          with (S (Z.to_nat (Os.rfind_from s (i + 1) i - (i + 1) + 1))) by lia.
        cbn. rewrite Hdrop. symmetry. apply last_item_cons, split_not_nil.
    + destruct (IH (i + 1)%Z found) as [[Hfree Hr] | (Hfree & Hle & Hdrop)]; [lia | |].
      * left. done.
      * right. split; [exact Hfree |]. split; [lia |].
        replace (Z.to_nat (Os.rfind_from s (i + 1) found - i + 1))
          with (S (Z.to_nat (Os.rfind_from s (i + 1) found - (i + 1) + 1))) by lia.
        cbn. rewrite Hdrop.
        destruct (split_two s Hfree) as (h1 & h2 & t & ->).
        symmetry. apply (last_item_cons (String a h1) (h2 :: t)). discriminate.
Qed.

Lemma slash_free_last s : Os.slash_free (Os.last_item (Os.split s)) = true.
Proof.
  induction s as [| a s IH]; cbn; [reflexivity |].
  destruct (decide (a = "/"%char)) as [Ha | Ha].
  - rewrite last_item_cons by apply split_not_nil. exact IH.
  - destruct (Os.split s) as [| h [| h2 t]] eqn:E.
    + by apply split_not_nil in E.
    + unfold Os.last_item in *. cbn in *. by rewrite decide_False.
    + rewrite last_item_cons by discriminate.
      rewrite last_item_cons in IH by discriminate. exact IH.
Qed.

Lemma filename_is_basename_eq (file : string) :
  Os.filename_of file = Os.basename file.
Proof.
  unfold Os.filename_of, Os.basename, Os.rfind.
  destruct (rfind_from_spec file 0 (-1)) as [[Hfree ->] | (Hfree & Hle & Hdrop)];
    [lia | |].
  - cbn. rewrite ?str_drop_0, (split_slash_free file Hfree). reflexivity.
  - rewrite <- Hdrop. f_equal. lia.
Qed.

(** X12: the name [file.split('/')[-1]] the loop works with is
    [os.path.basename(file)], the name it moves the file to; it holds no
    "/", and the file path is that name or ends with "/" and that name. *)
Theorem filename_is_basename (file : string) :
  Os.filename_of file = Os.basename file
  ∧ Os.slash_free (Os.filename_of file) = true
  ∧ (file = Os.filename_of file
     ∨ ∃ dir, file = dir +:+ String "/" (Os.filename_of file)).
Proof.
  split; [apply filename_is_basename_eq |].
  unfold Os.filename_of.
  split.
  - apply slash_free_last.
  - induction file as [| a s IH]; [by left |]. cbn.
    destruct (decide (a = "/"%char)) as [-> | Ha].
    + right. rewrite last_item_cons by apply split_not_nil.
      destruct IH as [<- | [dir Hdir]]; [by exists EmptyString |].
      exists (String "/" dir). rewrite app_cons. by rewrite <- Hdir.
    + destruct (Os.split s) as [| h [| h2 t]] eqn:E.
      * by apply split_not_nil in E.
      * left. unfold Os.last_item in *. cbn in *.
        destruct IH as [-> | [dir Hdir]]; [reflexivity |].
        exfalso. assert (Hs := split_app dir h). rewrite <- Hdir, E in Hs.
        destruct (Os.split dir) as [| d ds] eqn:Ed; [by apply split_not_nil in Ed |].
        destruct (Os.split h) as [| x xs] eqn:Eh; [by apply split_not_nil in Eh |].
        destruct ds; discriminate.
      * right. rewrite last_item_cons by discriminate.
        rewrite last_item_cons in IH by discriminate.
        destruct IH as [Heq | [dir Hdir]].
        -- exfalso. assert (Hfree := slash_free_last s). rewrite E in Hfree.
           rewrite last_item_cons in Hfree by discriminate.
           rewrite <- Heq in Hfree.
           rewrite (split_slash_free s Hfree) in E. discriminate.
        -- exists (String a dir). rewrite app_cons. by rewrite <- Hdir.
Qed.

Lemma slash_free_app s t :
  Os.slash_free (s +:+ t) = Os.slash_free s && Os.slash_free t.
Proof.
  induction s as [| a s IH]; [reflexivity |].
  rewrite app_cons. cbn. destruct (decide (a = "/"%char)); [reflexivity | exact IH].
Qed.

Lemma str_take_app s t : Os.str_take (String.length s) (s +:+ t) = s.
Proof.
  induction s as [| a s IH]; cbn.
  - by destruct t.
  - rewrite app_cons. f_equal. exact IH.
Qed.

Lemma filename_of_app dir name :
  Os.slash_free name = true -> Os.filename_of (dir +:+ String "/" name) = name.
Proof.
  intros Hname. unfold Os.filename_of.
  rewrite split_app, last_item_app by apply split_not_nil.
  by rewrite (split_slash_free name Hname).
Qed.

(** X13: for a file downloaded as [<dir>/<root><suffix>], where [root] has
    nine characters and neither [root] nor [suffix] holds a "/", the loop
    moves the file to [<root><suffix>] and removes the directory
    [mastDownload/HST/<root>]: the directory the file was in when the file
    was downloaded to [mastDownload/HST/<root>/]. *)
Theorem removed_dir_is_dataset_dir (dir root suffix : string) :
  Os.slash_free root = true -> Os.slash_free suffix = true ->
  String.length root = 9 ->
  Os.basename (dir +:+ String "/" (root +:+ suffix)) = root +:+ suffix
  ∧ Os.removed_dir (dir +:+ String "/" (root +:+ suffix))
    = "mastDownload/HST/" +:+ root
  ∧ (dir = "mastDownload/HST/" +:+ root ->
     Os.removed_dir (dir +:+ String "/" (root +:+ suffix)) = dir).
Proof.
  intros Hroot Hsuffix Hlen.
  assert (Hname : Os.filename_of (dir +:+ String "/" (root +:+ suffix)) = root +:+ suffix).
  { apply filename_of_app. by rewrite slash_free_app, Hroot, Hsuffix. }
  assert (Hdir : Os.removed_dir (dir +:+ String "/" (root +:+ suffix))
                 = "mastDownload/HST/" +:+ root).
  { unfold Os.removed_dir. rewrite Hname, <- Hlen, str_take_app. reflexivity. }
  split; [| split].
  - rewrite <- filename_is_basename_eq. exact Hname.
  - exact Hdir.
  - intros ->. exact Hdir.
Qed.

Lemma removed_dir_is_dataset_dir_witness :
  Os.removed_dir "mastDownload/HST/idgga5m1q/idgga5m1q_flt.fits"
  = "mastDownload/HST/idgga5m1q".
Proof.
  exact (proj1 (proj2 (removed_dir_is_dataset_dir "mastDownload/HST/idgga5m1q"
                         "idgga5m1q" "_flt.fits" eq_refl eq_refl eq_refl))).
Defined.

(** * The second notebook: tidying up after a download *)

Example rename_to_nothing :
  Os.rename "a/b/" EmptyString (Os.Fsys {[ ["a"] := image_demo ]} ∅)
  = Os.Fails (Os.NotADirectory "a/b/")
  ∧ Os.rename "a/b/" EmptyString (Os.Fsys {[ ["a"; "b"] := image_demo ]} {[ ["a"] ]})
    = Os.Fails (Os.NotFound "a/b/").
Proof. split; vm_compute; reflexivity. Qed.

Example tidy_up_one :
  Os.tidy_up ["mastDownload/HST/idgga5m1q/idgga5m1q_flt.fits"] Os.fs_one
  = Os.Fine (Os.Fsys {[ ["idgga5m1q_flt.fits"] := image_demo ]} ∅).
Proof. vm_compute. reflexivity. Qed.

(** ** Paths *)


Lemma components_good (l : list string) :
  Forall good_name l -> filter (λ c : string, c ≠ EmptyString ∧ c ≠ ".") l = l.
Proof.
  induction 1 as [| c l Hc _ IH]; [reflexivity |].
  rewrite filter_cons, decide_True by exact Hc. by rewrite IH.
Qed.

Lemma components_app p q :
  Os.components (p +:+ String "/" q) = Os.components p ++ Os.components q.
Proof. unfold Os.components. by rewrite split_app, filter_app. Qed.

Lemma components_name c :
  Os.slash_free c = true -> good_name c -> Os.components c = [c].
Proof.
  intros Hfree Hgood. unfold Os.components.
  rewrite (split_slash_free c Hfree). apply components_good. by constructor.
Qed.

Lemma length_app_string s t :
  String.length (s +:+ t) = String.length s + String.length t.
Proof. induction s as [| a s IH]; [reflexivity |]. rewrite app_cons. cbn. by rewrite IH. Qed.

Lemma long_name (c : string) :
  3 ≤ String.length c -> good_name c ∧ c ≠ "..".
Proof. intros Hlen. repeat split; intros ->; cbn in Hlen; lia. Qed.

Lemma modelled_intro p :
  Os.relative p = true -> ".." ∉ Os.split p -> Os.modelled p = true.
Proof.
  intros Hrel Hsplit. unfold Os.modelled. rewrite Hrel.
  by apply bool_decide_eq_true.
Qed.

Lemma relative_app p q : p ≠ EmptyString -> Os.relative (p +:+ q) = Os.relative p.
Proof. by destruct p. Qed.

Lemma relative_name c : Os.slash_free c = true -> Os.relative c = true.
Proof.
  destruct c as [| a c]; [reflexivity |]. cbn.
  destruct (decide (a = "/"%char)); [discriminate |].
  intros _. by apply bool_decide_eq_true.
Qed.

(** ** The two calls, case by case *)

Lemma rename_moves src dst fs s d a :
  src ≠ EmptyString -> dst ≠ EmptyString ->
  Os.modelled src = true -> Os.modelled dst = true ->
  Os.names_entry src = true -> Os.names_entry dst = true ->
  Os.components src = s -> Os.components dst = d ->
  Os.files fs !! s = Some a ->
  d ∉ Os.dirs fs -> removelast d = [] ∨ removelast d ∈ Os.dirs fs ->
  Os.rename src dst fs
  = Os.Fine (Os.Fsys (<[d := a]> (delete s (Os.files fs))) (Os.dirs fs)).
Proof.
  intros Hsrc Hdst Hms Hmd Hns Hnd <- <- Hfile Hd Hparent. unfold Os.rename.
  rewrite !decide_False by assumption.
  rewrite Hms, Hmd, Hfile, Hns, Hnd. cbn [negb andb].
  rewrite decide_False by assumption. by rewrite decide_True.
Qed.

Lemma rmdir_removes p fs r :
  p ≠ EmptyString -> Os.modelled p = true -> Os.components p = r -> r ≠ [] ->
  r ∈ Os.dirs fs ->
  (∀ q, q ∈ dom (Os.files fs) ∪ Os.dirs fs -> q ≠ [] -> removelast q ≠ r) ->
  Os.rmdir p fs = Os.Fine (Os.Fsys (Os.files fs) (Os.dirs fs ∖ {[ r ]})).
Proof.
  intros Hp Hm <- Hr Hdir Hempty. unfold Os.rmdir.
  rewrite decide_False, Hm by assumption. cbn [negb].
  rewrite decide_False, decide_True by assumption.
  unfold Os.has_entries. rewrite bool_decide_eq_false_2; [reflexivity |].
  intros (q & Hq & Hne & Hpar). by apply (Hempty q).
Qed.

Lemma rmdir_blocked p fs r q :
  p ≠ EmptyString -> Os.modelled p = true -> Os.components p = r -> r ≠ [] ->
  r ∈ Os.dirs fs ->
  q ∈ dom (Os.files fs) ∪ Os.dirs fs -> q ≠ [] -> removelast q = r ->
  Os.rmdir p fs = Os.Fails (Os.NotEmpty p).
Proof.
  intros Hp Hm <- Hr Hdir Hq Hne Hpar. unfold Os.rmdir.
  rewrite decide_False, Hm by assumption. cbn [negb].
  rewrite decide_False, decide_True by assumption.
  unfold Os.has_entries. rewrite bool_decide_eq_true_2; [reflexivity |].
  exists q. done.
Qed.

(** ** The paths of a download *)

Lemma name_facts name :
  Os.slash_free name = true -> 3 ≤ String.length name ->
  name ≠ EmptyString ∧ Os.modelled name = true ∧ Os.names_entry name = true
  ∧ Os.components name = [name].
Proof.
  intros Hfree Hlen. destruct (long_name name Hlen) as [Hgood Hdots].
  split; [apply Hgood |]. split; [| split].
  - apply modelled_intro; [by apply relative_name |].
    rewrite (split_slash_free name Hfree).
    intros Hin%list_elem_of_singleton. congruence.
  - unfold Os.names_entry. rewrite (split_slash_free name Hfree).
    by apply bool_decide_eq_true.
  - by apply components_name.
Qed.

Lemma dataset_dir_facts root :
  Os.slash_free root = true -> 3 ≤ String.length root ->
  "mastDownload/HST/" +:+ root ≠ EmptyString
  ∧ Os.modelled ("mastDownload/HST/" +:+ root) = true
  ∧ Os.components ("mastDownload/HST/" +:+ root) = ["mastDownload"; "HST"; root].
Proof.
  intros Hfree Hlen. destruct (long_name root Hlen) as [Hgood Hdots].
  change ("mastDownload/HST/" +:+ root) with ("mastDownload/HST" +:+ String "/" root).
  split; [discriminate |]. split.
  - apply modelled_intro; [reflexivity |].
    rewrite split_app, (split_slash_free root Hfree).
    change (Os.split "mastDownload/HST") with ["mastDownload"; "HST"].
    intros Hin. repeat (apply elem_of_cons in Hin as [Hin | Hin]; [done |]).
    by apply elem_of_nil in Hin.
  - rewrite components_app, (components_name root Hfree Hgood). reflexivity.
Qed.

Lemma download_path_facts dir root name :
  dir = "mastDownload/HST" ∨ dir = "./mastDownload/HST" ->
  Os.slash_free root = true -> Os.slash_free name = true ->
  3 ≤ String.length root -> 3 ≤ String.length name ->
  dir +:+ String "/" (root +:+ String "/" name) ≠ EmptyString
  ∧ Os.modelled (dir +:+ String "/" (root +:+ String "/" name)) = true
  ∧ Os.names_entry (dir +:+ String "/" (root +:+ String "/" name)) = true
  ∧ Os.components (dir +:+ String "/" (root +:+ String "/" name))
    = ["mastDownload"; "HST"; root; name]
  ∧ Os.filename_of (dir +:+ String "/" (root +:+ String "/" name)) = name.
Proof.
  intros Hdir Hroot Hname Hlr Hln.
  destruct (long_name root Hlr) as [Hgr Hdr].
  destruct (long_name name Hln) as [Hgn Hdn].
  assert (Hsplit : Os.split (dir +:+ String "/" (root +:+ String "/" name))
                   = Os.split dir ++ [root; name]).
  { by rewrite !split_app, (split_slash_free root Hroot), (split_slash_free name Hname). }
  assert (Hlast : Os.filename_of (dir +:+ String "/" (root +:+ String "/" name)) = name).
  { unfold Os.filename_of. rewrite Hsplit. by rewrite last_item_app. }
  split; [destruct Hdir as [-> | ->]; discriminate |]. split; [| split; [| split]].
  - apply modelled_intro; [destruct Hdir as [-> | ->]; reflexivity |].
    rewrite Hsplit. intros Hin. apply elem_of_app in Hin as [Hin | Hin].
    + destruct Hdir as [-> | ->];
        repeat (apply elem_of_cons in Hin as [Hin | Hin]; [done |]);
        by apply elem_of_nil in Hin.
    + repeat (apply elem_of_cons in Hin as [Hin | Hin]; [done |]).
      by apply elem_of_nil in Hin.
  - unfold Os.names_entry. fold (Os.filename_of (dir +:+ String "/" (root +:+ String "/" name))).
    rewrite Hlast. by apply bool_decide_eq_true.
  - rewrite !components_app, (components_name root Hroot Hgr),
      (components_name name Hname Hgn).
    by destruct Hdir as [-> | ->].
  - exact Hlast.
Qed.

(** ** Tidying up *)

Lemma move_one fs dir root suffix a :
  dir = "mastDownload/HST" ∨ dir = "./mastDownload/HST" ->
  Os.slash_free root = true -> Os.slash_free suffix = true ->
  String.length root = 9 ->
  Os.files fs !! ["mastDownload"; "HST"; root; root +:+ suffix] = Some a ->
  [root +:+ suffix] ∉ Os.dirs fs ->
  Os.rename (dir +:+ String "/" (root +:+ String "/" (root +:+ suffix)))
            (Os.basename (dir +:+ String "/" (root +:+ String "/" (root +:+ suffix)))) fs
  = Os.Fine (Os.Fsys (<[[root +:+ suffix] := a]>
                        (delete ["mastDownload"; "HST"; root; root +:+ suffix]
                                (Os.files fs)))
                     (Os.dirs fs))
  ∧ Os.removed_dir (dir +:+ String "/" (root +:+ String "/" (root +:+ suffix)))
    = "mastDownload/HST/" +:+ root.
Proof.
  intros Hdir Hroot Hsuffix Hlen Hfile Hnodir.
  assert (Hname : Os.slash_free (root +:+ suffix) = true)
    by (by rewrite slash_free_app, Hroot, Hsuffix).
  assert (Hln : 3 ≤ String.length (root +:+ suffix))
    by (rewrite length_app_string; lia).
  destruct (download_path_facts dir root (root +:+ suffix) Hdir Hroot Hname)
    as (Hne & Hmod & Hent & Hcomp & Hlast); [lia | exact Hln |].
  destruct (name_facts (root +:+ suffix) Hname Hln) as (Hne' & Hmod' & Hent' & Hcomp').
  rewrite <- filename_is_basename_eq, Hlast. split.
  - apply rename_moves; try assumption. by left.
  - unfold Os.removed_dir. rewrite Hlast, <- Hlen, str_take_app. reflexivity.
Qed.

(** X14: when one product was downloaded to
    [mastDownload/HST/<root>/<root><suffix>], with a [root] of nine
    characters, and the three download directories hold nothing else, the
    cell moves the file to [<root><suffix>] in the working directory, with
    its content, removes the three directories and changes nothing else. *)
Theorem tidy_up_one_product fs dir root suffix a :
  dir = "mastDownload/HST" ∨ dir = "./mastDownload/HST" ->
  Os.slash_free root = true -> Os.slash_free suffix = true ->
  String.length root = 9 ->
  Os.files fs !! ["mastDownload"; "HST"; root; root +:+ suffix] = Some a ->
  ["mastDownload"] ∈ Os.dirs fs -> ["mastDownload"; "HST"] ∈ Os.dirs fs ->
  ["mastDownload"; "HST"; root] ∈ Os.dirs fs ->
  (∀ q, q ∈ Os.dirs fs -> Os.files fs !! q = None) ->
  (∀ q, q ∈ dom (Os.files fs) ∪ Os.dirs fs -> q ≠ [] ->
     (removelast q = ["mastDownload"; "HST"; root] ->
        q = ["mastDownload"; "HST"; root; root +:+ suffix])
     ∧ (removelast q = ["mastDownload"; "HST"] -> q = ["mastDownload"; "HST"; root])
     ∧ (removelast q = ["mastDownload"] -> q = ["mastDownload"; "HST"])) ->
  [root +:+ suffix] ∉ Os.dirs fs ->
  Os.tidy_up [dir +:+ String "/" (root +:+ String "/" (root +:+ suffix))] fs
  = Os.Fine (Os.Fsys
      (<[[root +:+ suffix] := a]>
         (delete ["mastDownload"; "HST"; root; root +:+ suffix] (Os.files fs)))
      (Os.dirs fs ∖ {[ ["mastDownload"; "HST"; root] ]}
                  ∖ {[ ["mastDownload"; "HST"] ]} ∖ {[ ["mastDownload"] ]})).
Proof.
  intros Hdir Hroot Hsuffix Hlen Hfile Hd1 Hd2 Hd3 Hdisj Honly Hnodir.
  destruct (move_one fs dir root suffix a Hdir Hroot Hsuffix Hlen Hfile Hnodir)
    as [Hmove Hrm].
  destruct (dataset_dir_facts root Hroot) as (Hne & Hmod & Hcomp); [lia |].
  unfold Os.tidy_up, Os.move_files. rewrite Hmove. cbn [Os.and_then]. rewrite Hrm.
  assert (Hkept : ∀ q,
            q ∈ dom (<[[root +:+ suffix] := a]>
                       (delete ["mastDownload"; "HST"; root; root +:+ suffix]
                               (Os.files fs))) ->
            q = [root +:+ suffix]
            ∨ (q ≠ ["mastDownload"; "HST"; root; root +:+ suffix]
               ∧ q ∈ dom (Os.files fs))).
  { intros q Hq. rewrite dom_insert, elem_of_union, elem_of_singleton in Hq.
    destruct Hq as [-> | Hq]; [by left | right].
    rewrite dom_delete, elem_of_difference, elem_of_singleton in Hq.
    destruct Hq as [Hq Hne']. done. }
  assert (Hnofile : ∀ q, q ∈ Os.dirs fs -> q ∉ dom (Os.files fs)).
  { intros q Hq. apply not_elem_of_dom. by apply Hdisj. }
  rewrite (rmdir_removes _ _ ["mastDownload"; "HST"; root]); try done.
  2: { cbn [Os.files Os.dirs]. intros q Hq Hqne Hpar.
       apply elem_of_union in Hq as [Hq | Hq].
       - destruct (Hkept q Hq) as [-> | [Hne' Hq']]; [discriminate |].
         destruct (Honly q (elem_of_union_l _ _ _ Hq') Hqne) as (H1 & _ & _).
         by apply Hne', H1.
       - destruct (Honly q (elem_of_union_r _ _ _ Hq) Hqne) as (H1 & _ & _).
         apply (Hnofile q Hq). rewrite (H1 Hpar). by apply elem_of_dom. }
  cbn [Os.and_then].
  rewrite (rmdir_removes _ _ ["mastDownload"; "HST"]); try done.
  2: { cbn [Os.files Os.dirs]. apply elem_of_difference.
       split; [exact Hd2 | by intros [=]%elem_of_singleton]. }
  2: { cbn [Os.files Os.dirs]. intros q Hq Hqne Hpar.
       apply elem_of_union in Hq as [Hq | Hq].
       - destruct (Hkept q Hq) as [-> | [Hne' Hq']]; [discriminate |].
         destruct (Honly q (elem_of_union_l _ _ _ Hq') Hqne) as (_ & H2 & _).
         apply (Hnofile q); [| exact Hq']. by rewrite (H2 Hpar).
       - apply elem_of_difference in Hq as [Hq Hq3].
         destruct (Honly q (elem_of_union_r _ _ _ Hq) Hqne) as (_ & H2 & _).
         apply Hq3, elem_of_singleton, H2, Hpar. }
  cbn [Os.and_then Os.files Os.dirs].
  rewrite (rmdir_removes _ _ ["mastDownload"]); try done.
  - cbn [Os.files Os.dirs]. apply elem_of_difference.
    split; [| by intros [=]%elem_of_singleton].
    apply elem_of_difference. split; [exact Hd1 | by intros [=]%elem_of_singleton].
  - cbn [Os.files Os.dirs]. intros q Hq Hqne Hpar.
    apply elem_of_union in Hq as [Hq | Hq].
    + destruct (Hkept q Hq) as [-> | [Hne' Hq']]; [discriminate |].
      destruct (Honly q (elem_of_union_l _ _ _ Hq') Hqne) as (_ & _ & H3).
      apply (Hnofile q); [| exact Hq']. by rewrite (H3 Hpar).
    + apply elem_of_difference in Hq as [Hq Hq2].
      apply elem_of_difference in Hq as [Hq _].
      destruct (Honly q (elem_of_union_r _ _ _ Hq) Hqne) as (_ & _ & H3).
      apply Hq2, elem_of_singleton, H3, Hpar.
Qed.

Lemma tidy_up_one_product_witness :
  Os.tidy_up ["mastDownload/HST/idgga5m1q/idgga5m1q_flt.fits"] Os.fs_one
  = Os.Fine (Os.Fsys
      (<[["idgga5m1q_flt.fits"] := image_demo]>
         (delete ["mastDownload"; "HST"; "idgga5m1q"; "idgga5m1q_flt.fits"]
                 (Os.files Os.fs_one)))
      (Os.dirs Os.fs_one ∖ {[ ["mastDownload"; "HST"; "idgga5m1q"] ]}
                         ∖ {[ ["mastDownload"; "HST"] ]} ∖ {[ ["mastDownload"] ]})).
Proof.
  apply (tidy_up_one_product Os.fs_one "mastDownload/HST" "idgga5m1q" "_flt.fits"
           image_demo (or_introl eq_refl) eq_refl eq_refl eq_refl eq_refl).
  - compute_done.
  - compute_done.
  - compute_done.
  - intros q Hq. unfold Os.fs_one in Hq. cbn [Os.dirs] in Hq.
    repeat (apply elem_of_union in Hq as [Hq | Hq]);
      apply elem_of_singleton in Hq as ->; reflexivity.
  - intros q Hq _. unfold Os.fs_one in Hq. cbn [Os.dirs Os.files] in Hq.
    rewrite dom_singleton in Hq.
    repeat (apply elem_of_union in Hq as [Hq | Hq]);
      apply elem_of_singleton in Hq as ->; cbn;
      (split; [| split]); first [ by intros [=] | reflexivity | done ].
  - compute_done.
Defined.

(** X15: when the dataset directory holds something besides the file (a
    second product of the same observation, say), the loop moves the file
    and then stops at the removal of the directory, which raises the error
    of a directory that is not empty, whatever files follow in the list. *)
Theorem tidy_up_stops_on_second_product fs dir root suffix a q rest :
  dir = "mastDownload/HST" ∨ dir = "./mastDownload/HST" ->
  Os.slash_free root = true -> Os.slash_free suffix = true ->
  String.length root = 9 ->
  Os.files fs !! ["mastDownload"; "HST"; root; root +:+ suffix] = Some a ->
  ["mastDownload"; "HST"; root] ∈ Os.dirs fs ->
  [root +:+ suffix] ∉ Os.dirs fs ->
  q ∈ dom (Os.files fs) ∪ Os.dirs fs ->
  removelast q = ["mastDownload"; "HST"; root] ->
  q ≠ [] -> q ≠ ["mastDownload"; "HST"; root; root +:+ suffix] ->
  Os.tidy_up ((dir +:+ String "/" (root +:+ String "/" (root +:+ suffix))) :: rest) fs
  = Os.Fails (Os.NotEmpty ("mastDownload/HST/" +:+ root)).
Proof.
  intros Hdir Hroot Hsuffix Hlen Hfile Hd3 Hnodir Hq Hpar Hqne Hother.
  destruct (move_one fs dir root suffix a Hdir Hroot Hsuffix Hlen Hfile Hnodir)
    as [Hmove Hrm].
  destruct (dataset_dir_facts root Hroot) as (Hne & Hmod & Hcomp); [lia |].
  unfold Os.tidy_up. cbn [Os.move_files]. rewrite Hmove. cbn [Os.and_then].
  rewrite Hrm.
  rewrite (rmdir_blocked _ _ ["mastDownload"; "HST"; root] q); try done.
  cbn [Os.files Os.dirs].
  apply elem_of_union in Hq as [Hq | Hq]; [| by apply elem_of_union_r].
  apply elem_of_union_l. rewrite dom_insert, dom_delete.
  apply elem_of_union_r, elem_of_difference. split; [exact Hq |].
  by intros ?%elem_of_singleton.
Qed.

Lemma tidy_up_stops_on_second_product_witness :
  Os.tidy_up ["mastDownload/HST/idgga5m1q/idgga5m1q_flt.fits";
              "mastDownload/HST/idgga5m1q/idgga5m1q_raw.fits"] Os.fs_two
  = Os.Fails (Os.NotEmpty "mastDownload/HST/idgga5m1q").
Proof.
  apply (tidy_up_stops_on_second_product Os.fs_two "mastDownload/HST" "idgga5m1q"
           "_flt.fits" image_demo
           ["mastDownload"; "HST"; "idgga5m1q"; "idgga5m1q_raw.fits"]
           ["mastDownload/HST/idgga5m1q/idgga5m1q_raw.fits"]
           (or_introl eq_refl) eq_refl eq_refl eq_refl eq_refl).
  - compute_done.
  - compute_done.
  - compute_done.
  - reflexivity.
  - discriminate.
  - discriminate.
Defined.

(** X16: when nothing was downloaded, so that the loop has no file to move
    and there is no [mastDownload/HST], the cell raises FileNotFoundError
    at the first removal after the loop. *)
Theorem tidy_up_nothing_downloaded fs :
  ["mastDownload"; "HST"] ∉ Os.dirs fs ->
  Os.files fs !! ["mastDownload"; "HST"] = None ->
  Os.files fs !! ["mastDownload"] = None ->
  Os.tidy_up [] fs = Os.Fails (Os.NotFound "mastDownload/HST/").
Proof.
  intros Hdir Hfile Hup. unfold Os.tidy_up. cbn [Os.move_files Os.and_then].
  unfold Os.rmdir.
  rewrite decide_False by discriminate.
  change (Os.modelled "mastDownload/HST/") with true. cbn [negb].
  change (Os.components "mastDownload/HST/") with ["mastDownload"; "HST"].
  rewrite decide_False by discriminate.
  rewrite decide_False by exact Hdir.
  rewrite decide_False by (rewrite Hfile; by intros [? ?]).
  unfold Os.missing, Os.file_above.
  change (Os.above ["mastDownload"; "HST"]) with [["mastDownload"]].
  rewrite bool_decide_eq_false_2; [reflexivity |].
  intros Hex. apply Exists_cons in Hex as [[x Hx] | Hex]; [congruence |].
  by apply Exists_nil in Hex.
Qed.

Lemma tidy_up_nothing_downloaded_witness :
  Os.tidy_up [] (Os.Fsys ∅ ∅) = Os.Fails (Os.NotFound "mastDownload/HST/").
Proof.
  apply tidy_up_nothing_downloaded; [compute_done | reflexivity | reflexivity].
Defined.
